(** * py_to_dm_wrapper: a TF-Agents Python environment seen as a dm_env one

    A shallow embedding of [tf_agents/environments/py_to_dm_wrapper.py]:
    the three converters [_convert_timestep], [_convert_spec] and
    [_convert_action_spec], and the class [PyToDMWrapper].

    Python values are modelled by the data the wrapper reads and builds:
    numbers, numpy arrays (shape and flat data), nests of leaves (what
    [tree.map_structure] walks), the two families of array specs and the
    two families of timesteps.  Exceptions are an error result; the calls
    an adapter makes on the environment it wraps are threaded through a
    small state-and-error monad that also keeps a log of those calls. *)

From Stdlib Require Import List ZArith Bool String Lia.
From Stdlib Require Import PrimFloat FloatOps SpecFloat.
Import ListNotations.

Set Implicit Arguments.

(* ================================================================= *)
(** ** Exceptions *)

(** The exception classes that occur.  Only the class is kept, not the
    message text.  [Exception_ c] stands for whatever else a wrapped
    environment raises, [c] being the class name. *)
Inductive exn : Type :=
  | ValueError
  | NotImplementedError
  | Exception_ (cls : string).

Inductive result (A : Type) : Type :=
  | Ok (a : A)
  | Raise (e : exn).

Arguments Ok {A} a.
Arguments Raise {A} e.

Definition rbind {A B : Type} (r : result A) (k : A -> result B) : result B :=
  match r with
  | Ok a => k a
  | Raise e => Raise e
  end.

Declare Scope result_scope.
Delimit Scope result_scope with result.
Notation "x <- r ;; k" := (rbind r (fun x => k))
  (at level 61, r at next level, right associativity) : result_scope.

(* ================================================================= *)
(** ** numpy *)

Module np.

(** A Python number, as [ndarray.item()] hands it out. *)
Inductive number : Type :=
  | PyInt (z : Z)
  | PyFloat (f : float).

(** int -> float as Python's mixed arithmetic does it (round to nearest
    even).  Python raises OverflowError past the float range, where this
    gives an infinity; numpy items are at most 64 bits wide. *)
Definition float_of_int (z : Z) : float :=
  SF2Prim (binary_normalize prec emax z 0 false).

Definition to_float (n : number) : float :=
  match n with
  | PyInt z => float_of_int z
  | PyFloat f => f
  end.

(** [a == b] on numbers. *)
Definition eqb (a b : number) : bool :=
  match a, b with
  | PyInt x, PyInt y => Z.eqb x y
  | _, _ => PrimFloat.eqb (to_float a) (to_float b)
  end.

(** [a - b] and [a + b] on numbers. *)
Definition sub (a b : number) : number :=
  match a, b with
  | PyInt x, PyInt y => PyInt (x - y)
  | _, _ => PyFloat (PrimFloat.sub (to_float a) (to_float b))
  end.

Definition add (a b : number) : number :=
  match a, b with
  | PyInt x, PyInt y => PyInt (x + y)
  | _, _ => PyFloat (PrimFloat.add (to_float a) (to_float b))
  end.

(** Element types.  [np.issubdtype(d, np.integer)] holds of the signed
    and unsigned integer types, and not of [bool_]. *)
Inductive dtype : Type :=
  | bool_
  | int8 | int16 | int32 | int64
  | uint8 | uint16 | uint32 | uint64
  | float16 | float32 | float64
  | complex64 | complex128.

Definition issubdtype_integer (d : dtype) : bool :=
  match d with
  | int8 | int16 | int32 | int64
  | uint8 | uint16 | uint32 | uint64 => true
  | _ => false
  end.

(** An array: its shape (a Python tuple of ints) and its elements in row
    major order.  A Python scalar is the array of shape [()]. *)
Record ndarray : Type := array {
  shape : list nat;
  data : list number
}.

(** The number of elements a shape announces. *)
Definition size_of (sh : list nat) : nat := fold_right Nat.mul 1 sh.

(** [np.squeeze(a)]: the axes of length one are dropped, the elements
    stay as they are. *)
Definition squeeze (a : ndarray) : ndarray :=
  {| shape := filter (fun d => negb (Nat.eqb d 1)) (shape a);
     data := data a |}.

(** [a.item()]: the element of an array that has exactly one; ValueError
    otherwise. *)
Definition item (a : ndarray) : result number :=
  match data a with
  | [x] => Ok x
  | _ => Raise ValueError
  end.

(** [np.broadcast_to(a, shape=target)] succeeds: aligned from the right,
    each axis of the source is 1 or equal to the target's, and the
    source has no more axes than the target. *)
Fixpoint broadcastable_rev (src tgt : list nat) : bool :=
  match src, tgt with
  | [], _ => true
  | _ :: _, [] => false
  | d :: src', t :: tgt' =>
      (Nat.eqb d 1 || Nat.eqb d t) && broadcastable_rev src' tgt'
  end.

Definition broadcastable (src tgt : list nat) : bool :=
  broadcastable_rev (rev src) (rev tgt).

End np.

(* ================================================================= *)
(** ** Nests *)

(** What [tree.map_structure] walks: a leaf, a list or tuple of nests, or
    a dict of nests.  A dict is the list of its items in the dict's own
    order. *)
Inductive seq_kind : Type := PyList | PyTuple.

#[local] Unset Elimination Schemes.
Inductive nest (A : Type) : Type :=
  | Leaf (a : A)
  | Sequence (kind : seq_kind) (xs : list (nest A))
  | Mapping (items : list (string * nest A)).

#[local] Set Elimination Schemes.

Arguments Leaf {A} a.
Arguments Sequence {A} kind xs.
Arguments Mapping {A} items.

(** A raising function over a list, left to right; the first exception
    met ends it. *)
Section map_result.
Variables (A B : Type) (f : A -> result B).

Fixpoint map_result (l : list A) : result (list B) :=
  match l with
  | [] => Ok []
  | x :: l' =>
      rbind (f x) (fun y =>
      rbind (map_result l') (fun ys => Ok (y :: ys)))
  end.
End map_result.

Module tree.

(** [tree.map_structure(func, structure)], [func] being allowed to
    raise.  The result has the containers of the argument, each dict
    with its keys in their order.  (Python meets the leaves of a dict in
    sorted key order, which shows only in which of two raising leaves is
    reported.) *)
Fixpoint map_structure {A B : Type} (func : A -> result B)
    (structure : nest A) : result (nest B) :=
  match structure with
  | Leaf a => rbind (func a) (fun b => Ok (Leaf b))
  | Sequence kind xs =>
      rbind (map_result (map_structure func) xs)
        (fun ys => Ok (Sequence kind ys))
  | Mapping items =>
      rbind
        (map_result
           (fun kv : string * nest A =>
              rbind (map_structure func (snd kv))
                (fun y => Ok (fst kv, y)))
           items)
        (fun ys => Ok (Mapping ys))
  end.

(** [tree.flatten]'s leaves, in the nest's own order. *)
Fixpoint leaves {A : Type} (structure : nest A) : list A :=
  match structure with
  | Leaf a => [a]
  | Sequence _ xs => flat_map leaves xs
  | Mapping items => flat_map (fun kv => leaves (snd kv)) items
  end.

End tree.

(** The container skeleton of a nest: every leaf forgotten. *)
Fixpoint skeleton {A : Type} (t : nest A) : nest unit :=
  match t with
  | Leaf _ => Leaf tt
  | Sequence kind xs => Sequence kind (map skeleton xs)
  | Mapping items => Mapping (map (fun kv => (fst kv, skeleton (snd kv))) items)
  end.

(** The pure leaf-wise image of a nest. *)
Fixpoint nest_map {A B : Type} (f : A -> B) (t : nest A) : nest B :=
  match t with
  | Leaf a => Leaf (f a)
  | Sequence kind xs => Sequence kind (map (nest_map f) xs)
  | Mapping items => Mapping (map (fun kv => (fst kv, nest_map f (snd kv))) items)
  end.

(** Induction over a nest, with the hypothesis on every member of a
    container. *)
Section nest_induction.
Variables (A : Type) (P : nest A -> Prop).
Hypothesis HLeaf : forall a, P (Leaf a).
Hypothesis HSequence :
  forall kind xs, Forall P xs -> P (Sequence kind xs).
Hypothesis HMapping :
  forall items, Forall (fun kv => P (snd kv)) items -> P (Mapping items).

Fixpoint nest_ind (t : nest A) : P t :=
  match t with
  | Leaf a => HLeaf a
  | Sequence kind xs =>
      HSequence kind
        ((fix go (l : list (nest A)) : Forall P l :=
            match l with
            | [] => Forall_nil P
            | x :: l' => Forall_cons x (nest_ind x) (go l')
            end) xs)
  | Mapping items =>
      HMapping
        ((fix go (l : list (string * nest A))
            : Forall (fun kv => P (snd kv)) l :=
            match l with
            | [] => Forall_nil _
            | kv :: l' => Forall_cons kv (nest_ind (snd kv)) (go l')
            end) items)
  end.
End nest_induction.

(* ================================================================= *)
(** ** Array specs: tf_agents.specs.array_spec and dm_env.specs *)

Module tfa_spec.

(** Modelled from the spec: the classes [ArraySpec] and
    [BoundedArraySpec] of tf_agents/specs/array_spec.py, which the
    converters receive and whose code is not in py_to_dm_wrapper.py.  An
    array spec has a shape, an element type and an optional name; a
    bounded one has a minimum and a maximum besides, which the
    converters read as arrays ([.item()]). *)
Inductive ArraySpec : Type :=
  | ArraySpec_ (shape : list nat) (dtype : np.dtype) (name : option string)
  | BoundedArraySpec (shape : list nat) (dtype : np.dtype)
      (minimum maximum : np.ndarray) (name : option string).

Definition shape (spec : ArraySpec) : list nat :=
  match spec with
  | ArraySpec_ s _ _ | BoundedArraySpec s _ _ _ _ => s
  end.

Definition dtype (spec : ArraySpec) : np.dtype :=
  match spec with
  | ArraySpec_ _ d _ | BoundedArraySpec _ d _ _ _ => d
  end.

Definition name (spec : ArraySpec) : option string :=
  match spec with
  | ArraySpec_ _ _ n | BoundedArraySpec _ _ _ _ n => n
  end.

(** [isinstance(spec, BoundedArraySpec)]. *)
Definition is_bounded (spec : ArraySpec) : bool :=
  match spec with
  | ArraySpec_ _ _ _ => false
  | BoundedArraySpec _ _ _ _ _ => true
  end.

(** The bounds of a bounded spec. *)
Definition bounds (spec : ArraySpec) : option (np.ndarray * np.ndarray) :=
  match spec with
  | ArraySpec_ _ _ _ => None
  | BoundedArraySpec _ _ mn mx _ => Some (mn, mx)
  end.

End tfa_spec.

Module dm_spec.

(** The descriptors of dm_env.specs, each by the arguments it is built
    from: [Array(shape, dtype, name)],
    [BoundedArray(shape, dtype, minimum, maximum, name)] and
    [DiscreteArray(num_values, dtype, name)].  The checks dm_env makes on
    these arguments (bounds that broadcast to the shape, minimum <=
    maximum, a positive number of values) are not modelled: they pass on
    every spec tf_agents builds, and the descriptors stand for what is
    built from such specs. *)
Inductive Array : Type :=
  | Array_ (shape : list nat) (dtype : np.dtype) (name : option string)
  | BoundedArray (shape : list nat) (dtype : np.dtype)
      (minimum maximum : np.ndarray) (name : option string)
  | DiscreteArray (num_values : np.number) (dtype : np.dtype)
      (name : option string).

Definition is_discrete (a : Array) : bool :=
  match a with
  | DiscreteArray _ _ _ => true
  | _ => false
  end.

End dm_spec.

(* ================================================================= *)
(** ** Timesteps: tf_agents.trajectories.time_step and dm_env *)

Module ts.

(** Modelled from the spec: the class [TimeStep] of
    tf_agents/trajectories/time_step.py, whose code is not in
    py_to_dm_wrapper.py.  A timestep is the tuple of its step type,
    reward, discount and observation, together with what its methods
    [is_first()], [is_mid()] and [is_last()] answer: the three answers
    are taken as the timestep gives them, and nothing ties them to one
    another or to [step_type], which the converter reads only for the
    text of its exception. *)
Record TimeStep : Type := {
  step_type : np.ndarray;
  reward : np.ndarray;
  discount : np.ndarray;
  observation : nest np.ndarray;
  is_first : bool;
  is_mid : bool;
  is_last : bool
}.

End ts.

Module dm_env.

Inductive StepType : Type := FIRST | MID | LAST.

(** A reward or discount of a dm_env timestep: a Python float or an
    array. *)
Inductive value : Type :=
  | Float (f : float)
  | NdArray (a : np.ndarray).

Record TimeStep : Type := {
  step_type : StepType;
  reward : value;
  discount : value;
  observation : nest np.ndarray
}.

End dm_env.

(* ================================================================= *)
(** ** The converters *)

Open Scope result_scope.

Definition _convert_timestep (timestep : ts.TimeStep) : result dm_env.TimeStep :=
  step_type <-
    (if ts.is_first timestep then Ok dm_env.FIRST
     else if ts.is_last timestep then Ok dm_env.LAST
     else if ts.is_mid timestep then Ok dm_env.MID
     else Raise ValueError) ;;
  Ok {| dm_env.step_type := step_type;
        dm_env.reward :=
          if ts.is_first timestep then dm_env.Float 0%float
          else dm_env.NdArray (np.squeeze (ts.reward timestep));
        dm_env.discount :=
          if ts.is_first timestep then dm_env.Float 1%float
          else dm_env.NdArray (np.squeeze (ts.discount timestep));
        dm_env.observation := ts.observation timestep |}.

Definition _convert_spec (spec : tfa_spec.ArraySpec) : dm_spec.Array :=
  match spec with
  | tfa_spec.BoundedArraySpec shape dtype minimum maximum name =>
      dm_spec.BoundedArray shape dtype minimum maximum name
  | tfa_spec.ArraySpec_ shape dtype name =>
      dm_spec.Array_ shape dtype name
  end.

Definition _convert_action_spec (spec : tfa_spec.ArraySpec)
    : result dm_spec.Array :=
  match spec with
  | tfa_spec.BoundedArraySpec shape dtype minimum maximum name =>
      (* the conjuncts after [isinstance], left to right as [and] runs
         them: [minimum.item()] is reached only past the two before it *)
      discrete <-
        match shape with
        | [] =>
            if np.issubdtype_integer dtype then
              lo <- np.item minimum ;;
              Ok (np.eqb lo (np.PyInt 0))
            else Ok false
        | _ :: _ => Ok false
        end ;;
      if discrete then
        hi <- np.item maximum ;;
        lo <- np.item minimum ;;
        Ok (dm_spec.DiscreteArray
              (np.add (np.sub hi lo) (np.PyInt 1)) dtype name)
      else Ok (_convert_spec spec)
  | tfa_spec.ArraySpec_ _ _ _ => Ok (_convert_spec spec)
  end.

Close Scope result_scope.

(* ================================================================= *)
(** ** The wrapped environment *)

Module py_environment.

(** Modelled from the spec: what the adapter uses of a [PyEnvironment]
    of tf_agents/environments/py_environment.py, whose code is not in
    py_to_dm_wrapper.py: the [batched] property and six methods.  [E] is
    the environment's own state; a member may change it and may raise. *)
Record PyEnvironment (E Action : Type) : Type := {
  batched : E -> result bool * E;
  observation_spec : E -> result (nest tfa_spec.ArraySpec) * E;
  action_spec : E -> result (nest tfa_spec.ArraySpec) * E;
  discount_spec : E -> result (nest tfa_spec.ArraySpec) * E;
  reset : E -> result ts.TimeStep * E;
  step : Action -> E -> result ts.TimeStep * E;
  close : E -> result unit * E
}.

End py_environment.

(* ================================================================= *)
(** ** The adapter *)

Module PyToDMWrapper.
Section WithEnvironment.

Variables E Action : Type.

Abbreviation PyEnvironment := (py_environment.PyEnvironment E Action).

(** The members of the wrapped environment an adapter touches. *)
Inductive env_member : Type :=
  | env_batched
  | env_observation_spec
  | env_action_spec
  | env_discount_spec
  | env_reset
  | env_step (action : Action)
  | env_close.

(** What a run leaves behind: the assignments to attributes of [self]
    and the uses of the wrapped environment, oldest first. *)
Inductive event : Type :=
  | SetAttr (attr : string)
  | EnvUse (m : env_member).

Record world : Type := {
  env_state : E;
  trace : list event
}.

(** State and exceptions. *)
Definition M (A : Type) : Type := world -> result A * world.

Definition ret {A : Type} (a : A) : M A := fun w => (Ok a, w).

Definition bind {A B : Type} (m : M A) (k : A -> M B) : M B :=
  fun w =>
    match m w with
    | (Ok a, w') => k a w'
    | (Raise e, w') => (Raise e, w')
    end.

Definition raise {A : Type} (e : exn) : M A := fun w => (Raise e, w).

Definition lift {A : Type} (r : result A) : M A := fun w => (r, w).

Definition log (ev : event) : M unit :=
  fun w => (Ok tt, {| env_state := env_state w; trace := trace w ++ [ev] |}).

(** [self.<attr> = ...]. *)
Definition set_attr (attr : string) : M unit := log (SetAttr attr).

(** A use of member [m] of the wrapped environment, [f] being what the
    environment does then. *)
Definition use {A : Type} (m : env_member) (f : E -> result A * E) : M A :=
  fun w =>
    let (r, e') := f (env_state w) in
    (r, {| env_state := e'; trace := trace w ++ [EnvUse m] |}).

Declare Scope adapter_scope.
Delimit Scope adapter_scope with adapter.
Notation "x <- m ;; k" := (bind m (fun x => k))
  (at level 61, m at next level, right associativity) : adapter_scope.
Notation "m ;; k" := (bind m (fun _ => k))
  (at level 61, right associativity) : adapter_scope.
Local Open Scope adapter_scope.

(** The attributes of an adapter once [__init__] has run to its end.
    [_environment] is the wrapped environment; its state lives in the
    world.  The forwarding of other attributes ([__getattr__]) is not
    modelled. *)
Record t : Type := {
  _environment : PyEnvironment;
  _observation_spec : nest dm_spec.Array;
  _action_spec : nest dm_spec.Array;
  _discount_spec : nest dm_spec.Array
}.

Definition __init__ (env : PyEnvironment) : M t :=
  set_attr "_environment" ;;
  is_batched <- use env_batched (py_environment.batched env) ;;
  if is_batched : bool then raise NotImplementedError
  else
    observation <- use env_observation_spec
                     (py_environment.observation_spec env) ;;
    observation' <- lift (tree.map_structure
                            (fun spec => Ok (_convert_spec spec))
                            observation) ;;
    set_attr "_observation_spec" ;;
    action <- use env_action_spec (py_environment.action_spec env) ;;
    action' <- lift (tree.map_structure _convert_action_spec action) ;;
    set_attr "_action_spec" ;;
    discount <- use env_discount_spec (py_environment.discount_spec env) ;;
    discount' <- lift (tree.map_structure
                         (fun spec => Ok (_convert_spec spec))
                         discount) ;;
    set_attr "_discount_spec" ;;
    ret {| _environment := env;
           _observation_spec := observation';
           _action_spec := action';
           _discount_spec := discount' |}.

Definition reset (self : t) : M dm_env.TimeStep :=
  timestep <- use env_reset (py_environment.reset (_environment self)) ;;
  lift (_convert_timestep timestep).

Definition step (self : t) (action : Action) : M dm_env.TimeStep :=
  timestep <- use (env_step action)
                (py_environment.step (_environment self) action) ;;
  lift (_convert_timestep timestep).

Definition observation_spec (self : t) : M (nest dm_spec.Array) :=
  ret (_observation_spec self).

Definition action_spec (self : t) : M (nest dm_spec.Array) :=
  ret (_action_spec self).

Definition discount_spec (self : t) : M (nest dm_spec.Array) :=
  ret (_discount_spec self).

Definition environment (self : t) : M PyEnvironment :=
  ret (_environment self).

Definition close (self : t) : M unit :=
  use env_close (py_environment.close (_environment self)).

(** *** A caller's view: any sequence of method calls *)

Inductive method : Type :=
  | call_reset
  | call_step (action : Action)
  | call_observation_spec
  | call_action_spec
  | call_discount_spec
  | call_environment
  | call_close.

Inductive returned : Type :=
  | a_timestep (timestep : dm_env.TimeStep)
  | a_spec (spec : nest dm_spec.Array)
  | an_environment (env : PyEnvironment)
  | none.

Definition fmap {A B : Type} (f : A -> B) (m : M A) : M B :=
  x <- m ;; ret (f x).

Definition invoke (self : t) (m : method) : M returned :=
  match m with
  | call_reset => fmap a_timestep (reset self)
  | call_step action => fmap a_timestep (step self action)
  | call_observation_spec => fmap a_spec (observation_spec self)
  | call_action_spec => fmap a_spec (action_spec self)
  | call_discount_spec => fmap a_spec (discount_spec self)
  | call_environment => fmap an_environment (environment self)
  | call_close => fmap (fun _ => none) (close self)
  end.

(** The caller goes on after an exception: every call is made, and what
    each gave is kept. *)
Fixpoint run (self : t) (ms : list method) (w : world)
    : list (result returned) * world :=
  match ms with
  | [] => ([], w)
  | m :: ms' =>
      let (r, w') := invoke self m w in
      let (rs, w'') := run self ms' w' in
      (r :: rs, w'')
  end.

End WithEnvironment.

Arguments env_batched {Action}.
Arguments env_observation_spec {Action}.
Arguments env_action_spec {Action}.
Arguments env_discount_spec {Action}.
Arguments env_reset {Action}.
Arguments env_step {Action} action.
Arguments env_close {Action}.
Arguments SetAttr {Action} attr.
Arguments EnvUse {Action} m.
Arguments call_reset {Action}.
Arguments call_step {Action} action.
Arguments call_observation_spec {Action}.
Arguments call_action_spec {Action}.
Arguments call_discount_spec {Action}.
Arguments call_environment {Action}.
Arguments call_close {Action}.
Arguments a_timestep {E Action} timestep.
Arguments a_spec {E Action} spec.
Arguments an_environment {E Action} env.
Arguments none {E Action}.

End PyToDMWrapper.

(* ================================================================= *)
(** * Vocabulary of the statements *)

(** How many of the three phase tests a timestep passes. *)
Definition phases_holding (timestep : ts.TimeStep) : nat :=
  Nat.b2n (ts.is_first timestep) + Nat.b2n (ts.is_mid timestep)
  + Nat.b2n (ts.is_last timestep).

(** More than one phase holds; none does. *)
Definition ambiguous (timestep : ts.TimeStep) : Prop :=
  1 < phases_holding timestep.

Definition unrecognized (timestep : ts.TimeStep) : Prop :=
  phases_holding timestep = 0.

(** The first test that holds, the tests taken in the order first, last,
    mid. *)
Definition earliest_phase (timestep : ts.TimeStep) : option dm_env.StepType :=
  option_map snd
    (find fst [(ts.is_first timestep, dm_env.FIRST);
               (ts.is_last timestep, dm_env.LAST);
               (ts.is_mid timestep, dm_env.MID)]).

(** The timestep a first step converts to. *)
Definition first_step (observation : nest np.ndarray) : dm_env.TimeStep :=
  {| dm_env.step_type := dm_env.FIRST;
     dm_env.reward := dm_env.Float 0%float;
     dm_env.discount := dm_env.Float 1%float;
     dm_env.observation := observation |}.

(** The timestep a later step converts to: reward and discount squeezed. *)
Definition later_step (step_type : dm_env.StepType) (timestep : ts.TimeStep)
    : dm_env.TimeStep :=
  {| dm_env.step_type := step_type;
     dm_env.reward := dm_env.NdArray (np.squeeze (ts.reward timestep));
     dm_env.discount := dm_env.NdArray (np.squeeze (ts.discount timestep));
     dm_env.observation := ts.observation timestep |}.

(** The four outcomes, and no other. *)
Variant converted (timestep : ts.TimeStep) : result dm_env.TimeStep -> Prop :=
  | converted_first :
      ts.is_first timestep = true ->
      converted timestep (Ok (first_step (ts.observation timestep)))
  | converted_last :
      ts.is_first timestep = false -> ts.is_last timestep = true ->
      converted timestep (Ok (later_step dm_env.LAST timestep))
  | converted_mid :
      ts.is_first timestep = false -> ts.is_last timestep = false ->
      ts.is_mid timestep = true ->
      converted timestep (Ok (later_step dm_env.MID timestep))
  | converted_none :
      ts.is_first timestep = false -> ts.is_last timestep = false ->
      ts.is_mid timestep = false ->
      converted timestep (Raise ValueError).

(** An array holds as many elements as its shape announces. *)
Definition array_ok (a : np.ndarray) : Prop :=
  List.length (np.data a) = np.size_of (np.shape a).

(** The bounds of a bounded spec are arrays that broadcast to the shape
    of the spec. *)
Definition spec_ok (spec : tfa_spec.ArraySpec) : Prop :=
  match spec with
  | tfa_spec.ArraySpec_ _ _ _ => True
  | tfa_spec.BoundedArraySpec shape _ minimum maximum _ =>
      array_ok minimum /\ array_ok maximum
      /\ np.broadcastable (np.shape minimum) shape = true
      /\ np.broadcastable (np.shape maximum) shape = true
  end.

(** The bounds of a spec of scalar shape are single numbers: each has
    its [item()]. *)
Definition scalar_bounds (spec : tfa_spec.ArraySpec) : Prop :=
  match spec with
  | tfa_spec.BoundedArraySpec [] _ minimum maximum _ =>
      (exists lo, np.item minimum = Ok lo)
      /\ (exists hi, np.item maximum = Ok hi)
  | _ => True
  end.

(** The minimum of a spec is the single number 0. *)
Definition minimum_is_zero (spec : tfa_spec.ArraySpec) : Prop :=
  exists (minimum maximum : np.ndarray) (lo : np.number),
    tfa_spec.bounds spec = Some (minimum, maximum)
    /\ np.item minimum = Ok lo
    /\ np.eqb lo (np.PyInt 0) = true.

(** The discrete-action pattern: bounded, scalar shape, integer element
    type, minimum 0. *)
Definition discrete_pattern (spec : tfa_spec.ArraySpec) : Prop :=
  tfa_spec.is_bounded spec = true
  /\ tfa_spec.shape spec = []
  /\ np.issubdtype_integer (tfa_spec.dtype spec) = true
  /\ minimum_is_zero spec.

(** The outcomes of [_convert_action_spec], guard by guard. *)
Variant action_converted
    : tfa_spec.ArraySpec -> result dm_spec.Array -> Prop :=
  | action_unbounded shape dtype name :
      action_converted (tfa_spec.ArraySpec_ shape dtype name)
        (Ok (dm_spec.Array_ shape dtype name))
  | action_not_scalar d shape dtype minimum maximum name :
      action_converted
        (tfa_spec.BoundedArraySpec (d :: shape) dtype minimum maximum name)
        (Ok (dm_spec.BoundedArray (d :: shape) dtype minimum maximum name))
  | action_not_integer dtype minimum maximum name :
      np.issubdtype_integer dtype = false ->
      action_converted
        (tfa_spec.BoundedArraySpec [] dtype minimum maximum name)
        (Ok (dm_spec.BoundedArray [] dtype minimum maximum name))
  | action_minimum_raises dtype minimum maximum name e :
      np.issubdtype_integer dtype = true ->
      np.item minimum = Raise e ->
      action_converted
        (tfa_spec.BoundedArraySpec [] dtype minimum maximum name)
        (Raise e)
  | action_not_zero dtype minimum maximum name lo :
      np.issubdtype_integer dtype = true ->
      np.item minimum = Ok lo ->
      np.eqb lo (np.PyInt 0) = false ->
      action_converted
        (tfa_spec.BoundedArraySpec [] dtype minimum maximum name)
        (Ok (dm_spec.BoundedArray [] dtype minimum maximum name))
  | action_maximum_raises dtype minimum maximum name lo e :
      np.issubdtype_integer dtype = true ->
      np.item minimum = Ok lo ->
      np.eqb lo (np.PyInt 0) = true ->
      np.item maximum = Raise e ->
      action_converted
        (tfa_spec.BoundedArraySpec [] dtype minimum maximum name)
        (Raise e)
  | action_discrete dtype minimum maximum name lo hi :
      np.issubdtype_integer dtype = true ->
      np.item minimum = Ok lo ->
      np.eqb lo (np.PyInt 0) = true ->
      np.item maximum = Ok hi ->
      action_converted
        (tfa_spec.BoundedArraySpec [] dtype minimum maximum name)
        (Ok (dm_spec.DiscreteArray
               (np.add (np.sub hi lo) (np.PyInt 1)) dtype name)).

(** The keys of a dict, in its order. *)
Definition keys {A : Type} (t : nest A) : list string :=
  match t with
  | Mapping items => map fst items
  | _ => []
  end.

(** ** Traces of the adapter *)

Section AdapterVocabulary.

Variables E Action : Type.

Import PyToDMWrapper.

Abbreviation event := (PyToDMWrapper.event Action).
Abbreviation adapter := (PyToDMWrapper.t E Action).

(** A use of one of the three spec methods of the wrapped environment. *)
Definition is_spec_use (ev : event) : bool :=
  match ev with
  | EnvUse env_observation_spec
  | EnvUse env_action_spec
  | EnvUse env_discount_spec => true
  | _ => false
  end.

(** An assignment to an attribute of the adapter. *)
Definition is_assignment (ev : event) : bool :=
  match ev with
  | SetAttr _ => true
  | EnvUse _ => false
  end.

(** What a construction that runs to its end leaves in the trace. *)
Definition construction : list event :=
  [ SetAttr "_environment"; EnvUse env_batched;
    EnvUse env_observation_spec; SetAttr "_observation_spec";
    EnvUse env_action_spec; SetAttr "_action_spec";
    EnvUse env_discount_spec; SetAttr "_discount_spec" ].

(** What a method that returned a spec must have returned. *)
Definition cached_answer (self : adapter) (m : method Action)
    (r : result (returned E Action)) : Prop :=
  match m with
  | call_observation_spec => r = Ok (a_spec (_observation_spec self))
  | call_action_spec => r = Ok (a_spec (_action_spec self))
  | call_discount_spec => r = Ok (a_spec (_discount_spec self))
  | _ => True
  end.

End AdapterVocabulary.

Arguments is_spec_use {Action} ev.
Arguments is_assignment {Action} ev.
Arguments construction {Action}.
Arguments cached_answer {E Action} self m r.

(* ================================================================= *)
(** * Sample data *)

(** Sample data for the closed instances below. *)
Definition scalar (x : float) : np.ndarray :=
  {| np.shape := []; np.data := [np.PyFloat x] |}.

Definition wrapped (x : float) : np.ndarray :=
  {| np.shape := [1]; np.data := [np.PyFloat x] |}.

Definition int_scalar (z : Z) : np.ndarray :=
  {| np.shape := []; np.data := [np.PyInt z] |}.

Definition sample_observation : nest np.ndarray :=
  Mapping [("position"%string,
            Leaf {| np.shape := [2];
                    np.data := [np.PyFloat 0.5; np.PyFloat (-1.5)] |});
           ("camera"%string,
            Sequence PyTuple [Leaf (wrapped 7); Leaf (int_scalar 3)])].

(** A timestep with the given answers to [is_first()], [is_mid()] and
    [is_last()]; its step type is 0, 1 or 2 after the first answer that
    holds, and 3 when none does. *)
Definition sample_timestep (first mid last : bool) : ts.TimeStep :=
  {| ts.step_type :=
       int_scalar (if first then 0 else if mid then 1
                   else if last then 2 else 3);
     ts.reward := wrapped 3.5;
     ts.discount := {| np.shape := [1; 1]; np.data := [np.PyFloat 0.75] |};
     ts.observation := sample_observation;
     ts.is_first := first;
     ts.is_mid := mid;
     ts.is_last := last |}.

(** The spec of the example: a scalar int32 action between 0 and 4. *)
Definition five_actions : tfa_spec.ArraySpec :=
  tfa_spec.BoundedArraySpec [] np.int32 (int_scalar 0) (int_scalar 4)
    (Some "action"%string).

(** A bounded spec outside the pattern: three float32 torques in
    [-1, 1], the bounds broadcast from scalars. *)
Definition torques : tfa_spec.ArraySpec :=
  tfa_spec.BoundedArraySpec [3] np.float32 (scalar (-1)) (scalar 1)
    (Some "torque"%string).

(** Observations are a dict of a bounded position and a free velocity;
    there are five actions; the discount lies in [0, 1]. *)
Definition sample_observation_spec : nest tfa_spec.ArraySpec :=
  Mapping
    [("position"%string,
      Leaf (tfa_spec.BoundedArraySpec [2] np.float32 (scalar (-1)) (scalar 1)
              (Some "position"%string)));
     ("velocity"%string,
      Leaf (tfa_spec.ArraySpec_ [2] np.float32 (Some "velocity"%string)))].

Definition sample_discount_spec : nest tfa_spec.ArraySpec :=
  Leaf (tfa_spec.BoundedArraySpec [] np.float32 (scalar 0) (scalar 1)
          (Some "discount"%string)).

(** The state of the environment is the number of steps taken in the
    episode, which ends at the third; an action is a number. *)
Definition sample_env (is_batched : bool) : py_environment.PyEnvironment nat nat :=
  {| py_environment.batched := fun n => (Ok is_batched, n);
     py_environment.observation_spec := fun n => (Ok sample_observation_spec, n);
     py_environment.action_spec := fun n => (Ok (Leaf five_actions), n);
     py_environment.discount_spec := fun n => (Ok sample_discount_spec, n);
     py_environment.reset := fun _ => (Ok (sample_timestep true false false), 0);
     py_environment.step := fun _ n =>
       (Ok (sample_timestep false (Nat.ltb n 2) (negb (Nat.ltb n 2))), S n);
     py_environment.close := fun n => (Ok tt, n) |}.

Definition fresh_world : PyToDMWrapper.world nat nat :=
  {| PyToDMWrapper.env_state := 0; PyToDMWrapper.trace := [] |}.

Definition sample_adapter : PyToDMWrapper.t nat nat :=
  {| PyToDMWrapper._environment := sample_env false;
     PyToDMWrapper._observation_spec :=
       Mapping
         [("position"%string,
           Leaf (dm_spec.BoundedArray [2] np.float32 (scalar (-1)) (scalar 1)
                   (Some "position"%string)));
          ("velocity"%string,
           Leaf (dm_spec.Array_ [2] np.float32 (Some "velocity"%string)))];
     PyToDMWrapper._action_spec :=
       Leaf (dm_spec.DiscreteArray (np.PyInt 5) np.int32
               (Some "action"%string));
     PyToDMWrapper._discount_spec :=
       Leaf (dm_spec.BoundedArray [] np.float32 (scalar 0) (scalar 1)
               (Some "discount"%string)) |}.

Definition constructed_world : PyToDMWrapper.world nat nat :=
  {| PyToDMWrapper.env_state := 0;
     PyToDMWrapper.trace := construction |}.

(** What a caller may do with the adapter, the spec accessors in between. *)
Definition sample_calls : list (PyToDMWrapper.method nat) :=
  [ PyToDMWrapper.call_observation_spec;
    PyToDMWrapper.call_reset;
    PyToDMWrapper.call_step 3;
    PyToDMWrapper.call_observation_spec;
    PyToDMWrapper.call_action_spec;
    PyToDMWrapper.call_close;
    PyToDMWrapper.call_discount_spec ].

(* ================================================================= *)
(** * Further vocabulary and sample data *)

(** Modelled from the spec: a timestep of the data model has one step
    phase indicator, and [is_first()], [is_mid()] and [is_last()] say
    whether that indicator is theirs.  [Some phase] is an indicator that
    is one of first, mid and last; [None] is one that is none of them. *)
Definition answers_from (indicator : option dm_env.StepType)
    (timestep : ts.TimeStep) : Prop :=
  ts.is_first timestep
  = match indicator with Some dm_env.FIRST => true | _ => false end
  /\ ts.is_mid timestep
     = match indicator with Some dm_env.MID => true | _ => false end
  /\ ts.is_last timestep
     = match indicator with Some dm_env.LAST => true | _ => false end.

(** The three answers of a timestep come from one phase indicator. *)
Definition one_phase_indicator (timestep : ts.TimeStep) : Prop :=
  exists indicator : option dm_env.StepType, answers_from indicator timestep.

(** [a <= b] on numbers. *)
Definition number_leb (a b : np.number) : bool :=
  match a, b with
  | np.PyInt x, np.PyInt y => Z.leb x y
  | _, _ => PrimFloat.leb (np.to_float a) (np.to_float b)
  end.

Definition is_int (n : np.number) : bool :=
  match n with
  | np.PyInt _ => true
  | np.PyFloat _ => false
  end.

(** A spec as tf_agents builds them.  The bounds of a bounded spec hold
    as many elements as their shapes announce and broadcast to the shape
    of the spec; no element of the minimum exceeds an element of the
    maximum, so that minimum <= maximum however the two broadcast; and
    the bounds of an integer spec are integers.  On such a spec the
    argument checks of dm_env.specs pass. *)
Definition constructible (spec : tfa_spec.ArraySpec) : Prop :=
  match spec with
  | tfa_spec.ArraySpec_ _ _ _ => True
  | tfa_spec.BoundedArraySpec _ dtype minimum maximum _ =>
      spec_ok spec
      /\ Forall (fun lo =>
                   Forall (fun hi => number_leb lo hi = true) (np.data maximum))
           (np.data minimum)
      /\ (np.issubdtype_integer dtype = true ->
          Forall (fun x => is_int x = true) (np.data minimum)
          /\ Forall (fun x => is_int x = true) (np.data maximum))
  end.

(** An environment whose spec methods, whenever they return, return
    nests of constructible specs. *)
Definition well_formed_specs {E Action : Type}
    (env : py_environment.PyEnvironment E Action) : Prop :=
  forall (e e' : E) (specs : nest tfa_spec.ArraySpec),
    py_environment.observation_spec env e = (Ok specs, e')
    \/ py_environment.action_spec env e = (Ok specs, e')
    \/ py_environment.discount_spec env e = (Ok specs, e') ->
    Forall constructible (tree.leaves specs).

(** Two arrays that differ at most by axes of length one: the same
    elements, and the same other axes in the same order. *)
Definition same_up_to_singletons (a b : np.ndarray) : Prop :=
  np.data a = np.data b
  /\ filter (fun d => negb (Nat.eqb d 1)) (np.shape a)
     = filter (fun d => negb (Nat.eqb d 1)) (np.shape b).

(** The shape, element type and name a descriptor of dm_env.specs
    reports; a [DiscreteArray] is of scalar shape. *)
Definition descriptor_shape (d : dm_spec.Array) : list nat :=
  match d with
  | dm_spec.Array_ shape _ _ | dm_spec.BoundedArray shape _ _ _ _ => shape
  | dm_spec.DiscreteArray _ _ _ => []
  end.

Definition descriptor_dtype (d : dm_spec.Array) : np.dtype :=
  match d with
  | dm_spec.Array_ _ dtype _ | dm_spec.BoundedArray _ dtype _ _ _
  | dm_spec.DiscreteArray _ dtype _ => dtype
  end.

Definition descriptor_name (d : dm_spec.Array) : option string :=
  match d with
  | dm_spec.Array_ _ _ name | dm_spec.BoundedArray _ _ _ _ name
  | dm_spec.DiscreteArray _ _ name => name
  end.

Section DirectUse.

Variables E Action : Type.

Import PyToDMWrapper.

(** The members of the wrapped environment a method of the adapter
    reaches, in order. *)
Definition reaches (m : method Action) : list (env_member Action) :=
  match m with
  | call_reset => [env_reset]
  | call_step action => [env_step action]
  | call_close => [env_close]
  | call_observation_spec | call_action_spec | call_discount_spec
  | call_environment => []
  end.

(** The state of the environment once the members a method reaches have
    been used on it directly. *)
Definition env_after (env : py_environment.PyEnvironment E Action)
    (e : E) (m : method Action) : E :=
  match m with
  | call_reset => snd (py_environment.reset env e)
  | call_step action => snd (py_environment.step env action e)
  | call_close => snd (py_environment.close env e)
  | call_observation_spec | call_action_spec | call_discount_spec
  | call_environment => e
  end.

End DirectUse.

(** The sample timestep with reward and discount as bare scalars. *)
Definition flat_timestep (first mid last : bool) : ts.TimeStep :=
  {| ts.step_type := int_scalar 7;
     ts.reward := scalar 3.5;
     ts.discount := scalar 0.75;
     ts.observation := sample_observation;
     ts.is_first := first;
     ts.is_mid := mid;
     ts.is_last := last |}.

(** An environment like [sample_env false], except that its [step]
    gives a timestep that passes no phase test. *)
Definition stray_env : py_environment.PyEnvironment nat nat :=
  {| py_environment.batched := fun n => (Ok false, n);
     py_environment.observation_spec := fun n => (Ok sample_observation_spec, n);
     py_environment.action_spec := fun n => (Ok (Leaf five_actions), n);
     py_environment.discount_spec := fun n => (Ok sample_discount_spec, n);
     py_environment.reset := fun _ => (Ok (sample_timestep true false false), 0);
     py_environment.step := fun _ n => (Ok (sample_timestep false false false), S n);
     py_environment.close := fun n => (Ok tt, n) |}.

(** The adapter [__init__] builds over [stray_env]. *)
Definition stray_adapter : PyToDMWrapper.t nat nat :=
  {| PyToDMWrapper._environment := stray_env;
     PyToDMWrapper._observation_spec := PyToDMWrapper._observation_spec sample_adapter;
     PyToDMWrapper._action_spec := PyToDMWrapper._action_spec sample_adapter;
     PyToDMWrapper._discount_spec := PyToDMWrapper._discount_spec sample_adapter |}.

(** An environment like [sample_env false], except that its
    [action_spec] raises. *)
Definition raising_env : py_environment.PyEnvironment nat nat :=
  {| py_environment.batched := fun n => (Ok false, n);
     py_environment.observation_spec := fun n => (Ok sample_observation_spec, n);
     py_environment.action_spec := fun n => (Raise (Exception_ "RuntimeError"), n);
     py_environment.discount_spec := fun n => (Ok sample_discount_spec, n);
     py_environment.reset := fun _ => (Ok (sample_timestep true false false), 0);
     py_environment.step := fun _ n =>
       (Ok (sample_timestep false (Nat.ltb n 2) (negb (Nat.ltb n 2))), S n);
     py_environment.close := fun n => (Ok tt, n) |}.

(* ================================================================= *)
(** * Properties of the timestep converter *)

(** The converter, test by test. *)
Lemma convert_timestep_first (timestep : ts.TimeStep) :
  ts.is_first timestep = true ->
  _convert_timestep timestep = Ok (first_step (ts.observation timestep)).
Proof.
  intros Hfirst. unfold _convert_timestep, first_step.
  rewrite Hfirst. reflexivity.
Qed.

Lemma convert_timestep_last (timestep : ts.TimeStep) :
  ts.is_first timestep = false ->
  ts.is_last timestep = true ->
  _convert_timestep timestep = Ok (later_step dm_env.LAST timestep).
Proof.
  intros Hfirst Hlast. unfold _convert_timestep, later_step.
  rewrite Hfirst, Hlast. reflexivity.
Qed.

Lemma convert_timestep_mid (timestep : ts.TimeStep) :
  ts.is_first timestep = false ->
  ts.is_last timestep = false ->
  ts.is_mid timestep = true ->
  _convert_timestep timestep = Ok (later_step dm_env.MID timestep).
Proof.
  intros Hfirst Hlast Hmid. unfold _convert_timestep, later_step.
  rewrite Hfirst, Hlast, Hmid. reflexivity.
Qed.

Lemma convert_timestep_none (timestep : ts.TimeStep) :
  ts.is_first timestep = false ->
  ts.is_last timestep = false ->
  ts.is_mid timestep = false ->
  _convert_timestep timestep = Raise ValueError.
Proof.
  intros Hfirst Hlast Hmid. unfold _convert_timestep.
  rewrite Hfirst, Hlast, Hmid. reflexivity.
Qed.

Lemma convert_timestep_cases (timestep : ts.TimeStep) :
  converted timestep (_convert_timestep timestep).
Proof.
  destruct (ts.is_first timestep) eqn:Hfirst.
  - rewrite (convert_timestep_first _ Hfirst). now constructor.
  - destruct (ts.is_last timestep) eqn:Hlast.
    + rewrite (convert_timestep_last _ Hfirst Hlast). now constructor.
    + destruct (ts.is_mid timestep) eqn:Hmid.
      * rewrite (convert_timestep_mid _ Hfirst Hlast Hmid). now constructor.
      * rewrite (convert_timestep_none _ Hfirst Hlast Hmid). now constructor.
Qed.

(** [np.squeeze] leaves no axis of length one, keeps the other axes in
    their order, and keeps the elements. *)
Lemma squeeze_no_singleton (a : np.ndarray) :
  ~ In 1 (np.shape (np.squeeze a)).
Proof.
  unfold np.squeeze; simpl. intros Hin.
  apply filter_In in Hin. destruct Hin as [_ Hne]. discriminate Hne.
Qed.

Lemma squeeze_untouched (a : np.ndarray) :
  ~ In 1 (np.shape a) -> np.squeeze a = a.
Proof.
  destruct a as [sh elems]. unfold np.squeeze; simpl. intros Hno.
  f_equal. induction sh as [|d sh IH]; simpl; [reflexivity|].
  destruct (Nat.eqb_spec d 1) as [->|Hd]; simpl.
  - exfalso. apply Hno. now left.
  - f_equal. apply IH. intros Hin. apply Hno. now right.
Qed.

Lemma squeeze_size (a : np.ndarray) :
  np.size_of (np.shape (np.squeeze a)) = np.size_of (np.shape a).
Proof.
  destruct a as [sh elems]. unfold np.squeeze, np.size_of; simpl.
  induction sh as [|d sh IH]; simpl; [reflexivity|].
  destruct (Nat.eqb_spec d 1) as [->|Hd]; simpl; lia.
Qed.

(** C1.  A timestep that tests first converts with reward 0.0 and
    discount 1.0, whatever reward and discount it carries: the conversion
    succeeds, and the two fields of the result are those two Python
    floats. *)
Theorem first_step_reward_and_discount (timestep : ts.TimeStep) :
  ts.is_first timestep = true ->
  exists result_ : dm_env.TimeStep,
    _convert_timestep timestep = Ok result_
    /\ dm_env.step_type result_ = dm_env.FIRST
    /\ dm_env.reward result_ = dm_env.Float 0%float
    /\ dm_env.discount result_ = dm_env.Float 1%float.
Proof.
  intros Hfirst. exists (first_step (ts.observation timestep)).
  split; [now apply convert_timestep_first|].
  repeat split.
Qed.

Lemma first_step_reward_and_discount_witness :
  ts.reward (sample_timestep true false false) = wrapped 3.5
  /\ exists result_ : dm_env.TimeStep,
       _convert_timestep (sample_timestep true false false) = Ok result_
       /\ dm_env.step_type result_ = dm_env.FIRST
       /\ dm_env.reward result_ = dm_env.Float 0%float
       /\ dm_env.discount result_ = dm_env.Float 1%float.
Proof.
  split; [reflexivity|].
  apply (first_step_reward_and_discount (sample_timestep true false false)).
  reflexivity.
Defined.

(** C3.  A timestep that does not test first and tests last or mid
    converts with its reward and its discount squeezed: the elements are
    the source's, the axes are the source's axes other than those of
    length one, in their order, and an array without such an axis is left
    as it is.  A reward [[3.5]] becomes the scalar 3.5. *)
Theorem later_step_reward_and_discount_squeezed (timestep : ts.TimeStep) :
  ts.is_first timestep = false ->
  ts.is_last timestep = true \/ ts.is_mid timestep = true ->
  exists (phase : dm_env.StepType) (reward discount : np.ndarray),
    _convert_timestep timestep =
      Ok {| dm_env.step_type := phase;
            dm_env.reward := dm_env.NdArray reward;
            dm_env.discount := dm_env.NdArray discount;
            dm_env.observation := ts.observation timestep |}
    /\ (phase = dm_env.LAST \/ phase = dm_env.MID)
    /\ (np.data reward = np.data (ts.reward timestep)
        /\ np.shape reward
           = filter (fun d => negb (Nat.eqb d 1)) (np.shape (ts.reward timestep))
        /\ ~ In 1 (np.shape reward)
        /\ (~ In 1 (np.shape (ts.reward timestep)) ->
            reward = ts.reward timestep)
        /\ (ts.reward timestep = wrapped 3.5 -> reward = scalar 3.5))
    /\ (np.data discount = np.data (ts.discount timestep)
        /\ np.shape discount
           = filter (fun d => negb (Nat.eqb d 1))
               (np.shape (ts.discount timestep))
        /\ ~ In 1 (np.shape discount)
        /\ (~ In 1 (np.shape (ts.discount timestep)) ->
            discount = ts.discount timestep)).
Proof.
  intros Hfirst Hlater.
  assert (Hconv : exists phase,
             (phase = dm_env.LAST \/ phase = dm_env.MID)
             /\ _convert_timestep timestep = Ok (later_step phase timestep)).
  { destruct (ts.is_last timestep) eqn:Hlast.
    - exists dm_env.LAST. split; [now left|].
      now apply convert_timestep_last.
    - destruct Hlater as [Habs|Hmid]; [discriminate Habs|].
      exists dm_env.MID. split; [now right|].
      now apply convert_timestep_mid. }
  destruct Hconv as [phase [Hphase Hconv]].
  exists phase, (np.squeeze (ts.reward timestep)),
    (np.squeeze (ts.discount timestep)).
  split; [exact Hconv|]. split; [exact Hphase|].
  split.
  - repeat split.
    + apply squeeze_no_singleton.
    + apply squeeze_untouched.
    + intros ->. reflexivity.
  - repeat split.
    + apply squeeze_no_singleton.
    + apply squeeze_untouched.
Qed.

Lemma later_step_reward_and_discount_squeezed_witness :
  exists (phase : dm_env.StepType) (reward discount : np.ndarray),
    _convert_timestep (sample_timestep false true false) =
      Ok {| dm_env.step_type := phase;
            dm_env.reward := dm_env.NdArray reward;
            dm_env.discount := dm_env.NdArray discount;
            dm_env.observation := sample_observation |}
    /\ phase = dm_env.MID
    /\ reward = scalar 3.5
    /\ discount = scalar 0.75.
Proof.
  destruct (later_step_reward_and_discount_squeezed
              (sample_timestep false true false) eq_refl
              (or_intror eq_refl))
    as [phase [reward [discount [Hconv _]]]].
  exists phase, reward, discount.
  split; [exact Hconv|].
  cbv in Hconv. injection Hconv as Hphase Hreward Hdiscount.
  repeat split; symmetry; assumption.
Defined.

(** The converter by the number of phase tests that hold: it raises
    ValueError exactly when none does, raises nothing else, and returns a
    timestep exactly when at least one does. *)
Lemma convert_timestep_by_count (timestep : ts.TimeStep) :
  (_convert_timestep timestep = Raise ValueError <-> unrecognized timestep)
  /\ (forall e : exn, _convert_timestep timestep = Raise e -> e = ValueError)
  /\ ((exists result_ : dm_env.TimeStep,
         _convert_timestep timestep = Ok result_)
      <-> 1 <= phases_holding timestep)
  /\ (phases_holding timestep = 1 ->
      exists result_ : dm_env.TimeStep,
        _convert_timestep timestep = Ok result_)
  /\ (ambiguous timestep ->
      exists result_ : dm_env.TimeStep,
        _convert_timestep timestep = Ok result_).
Proof.
  assert (Hraise : _convert_timestep timestep = Raise ValueError
                   <-> unrecognized timestep).
  { unfold unrecognized, phases_holding.
    destruct (convert_timestep_cases timestep) as
      [Hfirst | Hfirst Hlast | Hfirst Hlast Hmid | Hfirst Hlast Hmid];
      rewrite ?Hfirst, ?Hlast, ?Hmid; simpl.
    - split; [discriminate | lia].
    - split; [discriminate | lia].
    - split; [discriminate | lia].
    - split; reflexivity. }
  assert (Hreturn : (exists result_ : dm_env.TimeStep,
                       _convert_timestep timestep = Ok result_)
                    <-> 1 <= phases_holding timestep).
  { unfold unrecognized in Hraise.
    destruct (convert_timestep_cases timestep) as [ | | | _ _ _ ].
    - split; [intros _ | eauto].
      destruct (phases_holding timestep);
        [destruct Hraise as [_ Hz]; discriminate (Hz eq_refl) | lia].
    - split; [intros _ | eauto].
      destruct (phases_holding timestep);
        [destruct Hraise as [_ Hz]; discriminate (Hz eq_refl) | lia].
    - split; [intros _ | eauto].
      destruct (phases_holding timestep);
        [destruct Hraise as [_ Hz]; discriminate (Hz eq_refl) | lia].
    - destruct Hraise as [Hzero _]. rewrite (Hzero eq_refl).
      split; [intros [r Hr]; discriminate Hr | lia]. }
  split; [exact Hraise|]. split; [|split; [exact Hreturn|split]].
  - intros e He.
    destruct (convert_timestep_cases timestep); congruence.
  - intros Hone. apply Hreturn. lia.
  - unfold ambiguous. intros Htwo. apply Hreturn. lia.
Qed.

(** A timestep with one phase indicator passes at most one phase
    test. *)
Lemma one_indicator_at_most_one (timestep : ts.TimeStep) :
  one_phase_indicator timestep <-> phases_holding timestep <= 1.
Proof.
  unfold one_phase_indicator, answers_from, phases_holding. split.
  - intros [indicator [-> [-> ->]]].
    destruct indicator as [[ | | ]|]; simpl; lia.
  - destruct (ts.is_first timestep), (ts.is_mid timestep),
      (ts.is_last timestep); simpl; intros Hle; try lia.
    + exists (Some dm_env.FIRST). repeat split.
    + exists (Some dm_env.MID). repeat split.
    + exists (Some dm_env.LAST). repeat split.
    + exists None. repeat split.
Qed.



(** C7.  Whatever phase test a timestep passes, it converts, and the
    observation of the result is the source's observation, the same nest
    with the same leaves. *)
Theorem observation_passed_through (timestep : ts.TimeStep) :
  ts.is_first timestep = true \/ ts.is_mid timestep = true
  \/ ts.is_last timestep = true ->
  exists result_ : dm_env.TimeStep,
    _convert_timestep timestep = Ok result_
    /\ dm_env.observation result_ = ts.observation timestep.
Proof.
  intros Hphase.
  destruct (convert_timestep_cases timestep) as
    [Hfirst | Hfirst Hlast | Hfirst Hlast Hmid | Hfirst Hlast Hmid].
  - eexists; split; reflexivity.
  - eexists; split; reflexivity.
  - eexists; split; reflexivity.
  - exfalso. destruct Hphase as [H | [H | H]]; congruence.
Qed.

Lemma observation_passed_through_witness :
  exists result_ : dm_env.TimeStep,
    _convert_timestep (sample_timestep false false true) = Ok result_
    /\ dm_env.step_type result_ = dm_env.LAST
    /\ dm_env.observation result_ = sample_observation.
Proof.
  destruct (observation_passed_through (sample_timestep false false true)
              (or_intror (or_intror eq_refl)))
    as [result_ [Hconv Hobs]].
  exists result_. split; [exact Hconv|]. split; [|exact Hobs].
  cbv in Hconv. injection Hconv as <-. reflexivity.
Defined.

(** C10.  The phase is the first test that holds in the order first,
    last, mid: the conversion returns a timestep of that step type, and
    raises ValueError when there is none, which is when the three tests
    all fail.  A timestep that tests first and last converts as a first
    step, reward 0.0 and discount 1.0. *)
Theorem phase_tests_in_order (timestep : ts.TimeStep) :
  match earliest_phase timestep with
  | Some phase =>
      exists result_ : dm_env.TimeStep,
        _convert_timestep timestep = Ok result_
        /\ dm_env.step_type result_ = phase
  | None => _convert_timestep timestep = Raise ValueError
  end
  /\ (_convert_timestep timestep = Raise ValueError
      <-> ts.is_first timestep = false /\ ts.is_last timestep = false
          /\ ts.is_mid timestep = false)
  /\ (ts.is_first timestep = true -> ts.is_last timestep = true ->
      _convert_timestep timestep = Ok (first_step (ts.observation timestep))).
Proof.
  unfold earliest_phase.
  destruct (convert_timestep_cases timestep) as
    [Hfirst | Hfirst Hlast | Hfirst Hlast Hmid | Hfirst Hlast Hmid];
    rewrite ?Hfirst, ?Hlast, ?Hmid; simpl.
  - split; [eexists; split; reflexivity|].
    split; [|reflexivity].
    split; [discriminate | intros [H _]; discriminate H].
  - split; [eexists; split; reflexivity|].
    split; [|discriminate].
    split; [discriminate | intros [_ [H _]]; discriminate H].
  - split; [eexists; split; reflexivity|].
    split; [|discriminate].
    split; [discriminate | intros [_ [_ H]]; discriminate H].
  - split; [reflexivity|].
    split; [|discriminate].
    split; [now repeat split | reflexivity].
Qed.

Lemma phase_tests_in_order_witness :
  earliest_phase (sample_timestep true true true) = Some dm_env.FIRST
  /\ earliest_phase (sample_timestep false true true) = Some dm_env.LAST
  /\ _convert_timestep (sample_timestep true false true)
     = Ok (first_step sample_observation).
Proof.
  split; [reflexivity|]. split; [reflexivity|].
  apply (proj2 (proj2 (phase_tests_in_order (sample_timestep true false true))));
    reflexivity.
Defined.

(* ================================================================= *)
(** * Properties of the spec converters *)

(** C6.  [_convert_spec] turns a bounded spec into a bounded descriptor
    of the same shape, element type, name, minimum and maximum, and a
    spec without bounds into a plain array descriptor of the same shape,
    element type and name; it never gives a discrete descriptor. *)
Theorem convert_spec_descriptor (spec : tfa_spec.ArraySpec) :
  match tfa_spec.bounds spec with
  | Some (minimum, maximum) =>
      tfa_spec.is_bounded spec = true
      /\ _convert_spec spec
         = dm_spec.BoundedArray (tfa_spec.shape spec) (tfa_spec.dtype spec)
             minimum maximum (tfa_spec.name spec)
  | None =>
      tfa_spec.is_bounded spec = false
      /\ _convert_spec spec
         = dm_spec.Array_ (tfa_spec.shape spec) (tfa_spec.dtype spec)
             (tfa_spec.name spec)
  end
  /\ dm_spec.is_discrete (_convert_spec spec) = false
  /\ (forall num_values dtype name,
        _convert_spec spec <> dm_spec.DiscreteArray num_values dtype name).
Proof.
  destruct spec as [shape dtype name | shape dtype minimum maximum name];
    simpl; repeat split; discriminate.
Qed.

Lemma broadcastable_to_scalar (shape : list nat) :
  np.broadcastable shape [] = true -> shape = [].
Proof.
  unfold np.broadcastable; simpl. intros Hb.
  destruct (rev shape) as [|d l] eqn:Hrev; [|discriminate Hb].
  apply (f_equal (@rev nat)) in Hrev. rewrite rev_involutive in Hrev.
  exact Hrev.
Qed.

Lemma item_of_scalar (a : np.ndarray) :
  array_ok a -> np.broadcastable (np.shape a) [] = true ->
  exists x : np.number, np.item a = Ok x.
Proof.
  unfold array_ok, np.item. intros Hlen Hb.
  rewrite (broadcastable_to_scalar _ Hb) in Hlen. simpl in Hlen.
  destruct (np.data a) as [|x [|y l]]; simpl in Hlen; try discriminate Hlen.
  now exists x.
Qed.

Lemma convert_action_spec_cases (spec : tfa_spec.ArraySpec) :
  action_converted spec (_convert_action_spec spec).
Proof.
  destruct spec as [shape dtype name | shape dtype minimum maximum name];
    simpl; [constructor|].
  destruct shape as [|d shape]; simpl; [|constructor].
  destruct (np.issubdtype_integer dtype) eqn:Hint; simpl;
    [|now constructor].
  destruct (np.item minimum) as [lo|e] eqn:Hlo; simpl;
    [|now constructor].
  destruct (np.eqb lo (np.PyInt 0)) eqn:Hzero; simpl;
    [|now apply action_not_zero with (lo := lo)].
  destruct (np.item maximum) as [hi|e] eqn:Hhi; simpl.
  - now constructor.
  - now apply action_maximum_raises with (lo := lo).
Qed.

(** Bounds that broadcast to a scalar shape are single numbers. *)
Lemma spec_ok_scalar_bounds (spec : tfa_spec.ArraySpec) :
  spec_ok spec -> scalar_bounds spec.
Proof.
  destruct spec as [shape dtype name | [|d shape] dtype minimum maximum name];
    simpl; try exact (fun _ => I).
  intros [Hmin [Hmax [Hbmin Hbmax]]].
  split; now apply item_of_scalar.
Qed.

(** A constructible spec of scalar shape has single numbers for
    bounds. *)
Lemma constructible_scalar_bounds (spec : tfa_spec.ArraySpec) :
  constructible spec -> scalar_bounds spec.
Proof.
  intros Hc. apply spec_ok_scalar_bounds.
  destruct spec; [exact I | exact (proj1 Hc)].
Qed.

(** A spec whose scalar bounds are single numbers is always converted. *)
Lemma convert_action_spec_total (spec : tfa_spec.ArraySpec) :
  scalar_bounds spec ->
  exists descriptor : dm_spec.Array, _convert_action_spec spec = Ok descriptor.
Proof.
  intros Hok.
  destruct (convert_action_spec_cases spec) as
    [ | | | ? minimum ? ? e _ Hlo | | ? ? maximum ? ? e _ _ _ Hhi | ];
    try (eexists; reflexivity).
  - destruct Hok as [[x Hx] _]. congruence.
  - destruct Hok as [_ [x Hx]]. congruence.
Qed.

(** The pattern, read off a bounded spec. *)
Lemma discrete_pattern_bounded shape dtype minimum maximum name :
  discrete_pattern (tfa_spec.BoundedArraySpec shape dtype minimum maximum name)
  <-> shape = [] /\ np.issubdtype_integer dtype = true
      /\ exists lo, np.item minimum = Ok lo /\ np.eqb lo (np.PyInt 0) = true.
Proof.
  unfold discrete_pattern, minimum_is_zero; simpl. split.
  - intros [_ [Hshape [Hint [mn [mx [lo [Hb [Hlo Hzero]]]]]]]].
    injection Hb as <- <-. repeat split; try assumption. now exists lo.
  - intros [Hshape [Hint [lo [Hlo Hzero]]]]. repeat split; try assumption.
    now exists minimum, maximum, lo.
Qed.

(** C2.  For a spec whose bounds, when its shape is scalar, are single
    numbers, [_convert_action_spec] gives a discrete descriptor exactly
    when the spec is bounded, of scalar shape, of integer element type
    and of minimum 0.  The descriptor then has the element type and the
    name of the spec, and maximum - minimum + 1 values.  A bounded spec
    outside the pattern gives what [_convert_spec] gives, the bounded
    descriptor with the bounds kept. *)
Theorem action_spec_discrete_iff_pattern (spec : tfa_spec.ArraySpec) :
  scalar_bounds spec ->
  ((exists num_values dtype name,
      _convert_action_spec spec
      = Ok (dm_spec.DiscreteArray num_values dtype name))
   <-> discrete_pattern spec)
  /\ (discrete_pattern spec ->
      exists (minimum maximum : np.ndarray) (lo hi : np.number),
        tfa_spec.bounds spec = Some (minimum, maximum)
        /\ np.item minimum = Ok lo
        /\ np.item maximum = Ok hi
        /\ _convert_action_spec spec
           = Ok (dm_spec.DiscreteArray
                   (np.add (np.sub hi lo) (np.PyInt 1))
                   (tfa_spec.dtype spec) (tfa_spec.name spec))
        /\ (forall h l : Z,
              hi = np.PyInt h -> lo = np.PyInt l ->
              l = 0%Z
              /\ np.add (np.sub hi lo) (np.PyInt 1) = np.PyInt (h - l + 1)))
  /\ (~ discrete_pattern spec ->
      _convert_action_spec spec = Ok (_convert_spec spec)
      /\ forall minimum maximum : np.ndarray,
           tfa_spec.bounds spec = Some (minimum, maximum) ->
           _convert_action_spec spec
           = Ok (dm_spec.BoundedArray (tfa_spec.shape spec)
                   (tfa_spec.dtype spec) minimum maximum
                   (tfa_spec.name spec))).
Proof.
  intros Hok.
  destruct (convert_action_spec_cases spec) as
    [ shape dtype name
    | d shape dtype minimum maximum name
    | dtype minimum maximum name Hint
    | dtype minimum maximum name e Hint Hlo
    | dtype minimum maximum name lo Hint Hlo Hzero
    | dtype minimum maximum name lo e Hint Hlo Hzero Hhi
    | dtype minimum maximum name lo hi Hint Hlo Hzero Hhi ].
  - (* no bounds *)
    assert (Hnot : ~ discrete_pattern (tfa_spec.ArraySpec_ shape dtype name)).
    { intros [Hb _]. discriminate Hb. }
    split; [split; [intros [n [d' [nm H]]]; discriminate H | tauto]|].
    split; [tauto|]. intros _. split; [reflexivity|].
    intros mn mx Hb. discriminate Hb.
  - (* an axis *)
    assert (Hnot : ~ discrete_pattern
                     (tfa_spec.BoundedArraySpec (d :: shape) dtype
                        minimum maximum name)).
    { rewrite discrete_pattern_bounded. intros [Hs _]. discriminate Hs. }
    split; [split; [intros [n [d' [nm H]]]; discriminate H | tauto]|].
    split; [tauto|]. intros _. split; [reflexivity|].
    intros mn mx Hb. simpl in Hb. injection Hb as <- <-. reflexivity.
  - (* not an integer type *)
    assert (Hnot : ~ discrete_pattern
                     (tfa_spec.BoundedArraySpec [] dtype minimum maximum name)).
    { rewrite discrete_pattern_bounded. intros [_ [Hi _]]. congruence. }
    split; [split; [intros [n [d' [nm H]]]; discriminate H | tauto]|].
    split; [tauto|]. intros _. split; [reflexivity|].
    intros mn mx Hb. simpl in Hb. injection Hb as <- <-. reflexivity.
  - (* the minimum has no item: excluded *)
    exfalso. destruct Hok as [[x Hx] _]. congruence.
  - (* the minimum is not 0 *)
    assert (Hnot : ~ discrete_pattern
                     (tfa_spec.BoundedArraySpec [] dtype minimum maximum name)).
    { rewrite discrete_pattern_bounded. intros [_ [_ [lo' [Hlo' Hz]]]].
      congruence. }
    split; [split; [intros [n [d' [nm H]]]; discriminate H | tauto]|].
    split; [tauto|]. intros _. split; [reflexivity|].
    intros mn mx Hb. simpl in Hb. injection Hb as <- <-. reflexivity.
  - (* the maximum has no item: excluded *)
    exfalso. destruct Hok as [_ [x Hx]]. congruence.
  - (* the pattern *)
    assert (Hpat : discrete_pattern
                     (tfa_spec.BoundedArraySpec [] dtype minimum maximum name)).
    { rewrite discrete_pattern_bounded. repeat split; try assumption.
      now exists lo. }
    split; [split; [intros _; exact Hpat | intros _; now eauto]|].
    split; [|intros Hnot; contradiction].
    intros _. exists minimum, maximum, lo, hi. simpl.
    repeat split; try assumption.
    + subst lo. simpl in Hzero. now apply Z.eqb_eq.
    + subst hi lo. reflexivity.
Qed.

Lemma action_spec_discrete_iff_pattern_witness :
  scalar_bounds five_actions
  /\ _convert_action_spec five_actions
     = Ok (dm_spec.DiscreteArray (np.PyInt 5) np.int32 (Some "action"%string))
  /\ scalar_bounds torques
  /\ _convert_action_spec torques
     = Ok (dm_spec.BoundedArray [3] np.float32 (scalar (-1)) (scalar 1)
             (Some "torque"%string)).
Proof.
  assert (Hfive : scalar_bounds five_actions).
  { apply spec_ok_scalar_bounds. repeat split. }
  assert (Htorques : scalar_bounds torques) by exact I.
  split; [exact Hfive|]. split; [|split; [exact Htorques|]].
  - destruct (action_spec_discrete_iff_pattern five_actions Hfive)
      as [_ [Hdiscrete _]].
    assert (Hpat : discrete_pattern five_actions).
    { apply discrete_pattern_bounded. repeat split.
      exists (np.PyInt 0). now split. }
    destruct (Hdiscrete Hpat)
      as [minimum [maximum [lo [hi [Hb [Hlo [Hhi [Hconv _]]]]]]]].
    injection Hb as <- <-.
    injection Hlo as <-. injection Hhi as <-.
    exact Hconv.
  - destruct (action_spec_discrete_iff_pattern torques Htorques)
      as [_ [_ Hbounded]].
    apply Hbounded; [|reflexivity].
    intros [_ [Hshape _]]. discriminate Hshape.
Defined.

(* ================================================================= *)
(** * Properties of nests *)

Lemma rbind_ok {A B : Type} (r : result A) (k : A -> result B) (b : B) :
  rbind r k = Ok b -> exists a, r = Ok a /\ k a = Ok b.
Proof.
  destruct r as [a|e]; simpl; intros H; [now exists a | discriminate H].
Qed.

Lemma map_result_ok {A B : Type} (f : A -> result B) (l : list A)
    (l' : list B) :
  map_result f l = Ok l' <-> Forall2 (fun a b => f a = Ok b) l l'.
Proof.
  revert l'. induction l as [|x l IH]; intros l'; simpl.
  - split.
    + intros H. injection H as <-. constructor.
    + intros H. inversion H. reflexivity.
  - split.
    + intros H. apply rbind_ok in H. destruct H as [y [Hy H]].
      apply rbind_ok in H. destruct H as [ys [Hys H]].
      injection H as <-. constructor; [exact Hy|]. now apply IH.
    + intros H. inversion H as [|? y ? ys Hy Hys]; subst.
      rewrite Hy; simpl. apply IH in Hys. rewrite Hys. reflexivity.
Qed.

(** A pure function under [tree.map_structure] never raises, and the
    result is the leaf-wise image. *)
Lemma map_structure_pure {A B : Type} (f : A -> B) (t : nest A) :
  tree.map_structure (fun a => Ok (f a)) t = Ok (nest_map f t).
Proof.
  induction t as [a | kind xs IH | items IH] using nest_ind; simpl.
  - reflexivity.
  - assert (H : map_result (tree.map_structure (fun a => Ok (f a))) xs
                = Ok (map (nest_map f) xs)).
    { apply map_result_ok. induction IH as [|x xs Hx _ IHxs]; simpl;
        constructor; assumption. }
    rewrite H. reflexivity.
  - assert (H : map_result
                  (fun kv : string * nest A =>
                     rbind (tree.map_structure (fun a => Ok (f a)) (snd kv))
                       (fun y => Ok (fst kv, y))) items
                = Ok (map (fun kv => (fst kv, nest_map f (snd kv))) items)).
    { apply map_result_ok. induction IH as [|kv items Hkv _ IHitems]; simpl;
        constructor; [|assumption]. rewrite Hkv. reflexivity. }
    rewrite H. reflexivity.
Qed.

(** Whatever [tree.map_structure] returns has the skeleton of its
    argument. *)
Lemma map_structure_skeleton {A B : Type} (f : A -> result B) (t : nest A) :
  forall t' : nest B,
    tree.map_structure f t = Ok t' -> skeleton t' = skeleton t.
Proof.
  induction t as [a | kind xs IH | items IH] using nest_ind;
    intros t' H; simpl in H; apply rbind_ok in H;
    destruct H as [y [Hy H]]; injection H as <-; simpl.
  - reflexivity.
  - f_equal. apply map_result_ok in Hy.
    induction Hy as [|x x' xs xs' Hx _ IHxs]; simpl; [reflexivity|].
    inversion IH as [|? ? IHx IHrest]; subst.
    f_equal; [now apply IHx | now apply IHxs].
  - f_equal. apply map_result_ok in Hy.
    induction Hy as [|kv kv' items items' Hkv _ IHitems]; simpl;
      [reflexivity|].
    inversion IH as [|? ? IHkv IHrest]; subst.
    apply rbind_ok in Hkv. destruct Hkv as [v [Hv Hkv]].
    injection Hkv as <-. simpl.
    f_equal; [|now apply IHitems]. f_equal. now apply IHkv.
Qed.

(** ... and its leaves are the images of the argument's leaves, one for
    one and in order. *)
Lemma map_structure_leaves {A B : Type} (f : A -> result B) (t : nest A) :
  forall t' : nest B,
    tree.map_structure f t = Ok t' ->
    Forall2 (fun a b => f a = Ok b) (tree.leaves t) (tree.leaves t').
Proof.
  induction t as [a | kind xs IH | items IH] using nest_ind;
    intros t' H; simpl in H; apply rbind_ok in H;
    destruct H as [y [Hy H]]; injection H as <-; simpl.
  - constructor; [exact Hy | constructor].
  - apply map_result_ok in Hy.
    induction Hy as [|x x' xs xs' Hx _ IHxs]; simpl; [constructor|].
    inversion IH as [|? ? IHx IHrest]; subst.
    apply Forall2_app; [now apply IHx | now apply IHxs].
  - apply map_result_ok in Hy.
    induction Hy as [|kv kv' items items' Hkv _ IHitems]; simpl;
      [constructor|].
    inversion IH as [|? ? IHkv IHrest]; subst.
    apply rbind_ok in Hkv. destruct Hkv as [v [Hv Hkv]].
    injection Hkv as <-. simpl.
    apply Forall2_app; [now apply IHkv | now apply IHitems].
Qed.

(** [tree.map_structure] returns as soon as its function does on every
    leaf. *)
Lemma map_structure_total {A B : Type} (f : A -> result B) (t : nest A) :
  Forall (fun a => exists b, f a = Ok b) (tree.leaves t) ->
  exists t' : nest B, tree.map_structure f t = Ok t'.
Proof.
  induction t as [a | kind xs IH | items IH] using nest_ind;
    simpl; intros Hleaves.
  - inversion Hleaves as [|? ? [b Hb] _]; subst. rewrite Hb. simpl. eauto.
  - assert (H : exists ys, map_result (tree.map_structure f) xs = Ok ys).
    { induction IH as [|x xs Hx _ IHxs]; simpl; [eauto|].
      simpl in Hleaves. apply Forall_app in Hleaves.
      destruct Hleaves as [Hl Hr].
      destruct (Hx Hl) as [y Hy]. destruct (IHxs Hr) as [ys Hys].
      rewrite Hy, Hys. simpl. eauto. }
    destruct H as [ys Hys]. rewrite Hys. simpl. eauto.
  - assert (H : exists ys,
               map_result
                 (fun kv : string * nest A =>
                    rbind (tree.map_structure f (snd kv))
                      (fun y => Ok (fst kv, y))) items = Ok ys).
    { induction IH as [|kv items Hkv _ IHitems]; simpl; [eauto|].
      simpl in Hleaves. apply Forall_app in Hleaves.
      destruct Hleaves as [Hl Hr].
      destruct (Hkv Hl) as [y Hy]. destruct (IHitems Hr) as [ys Hys].
      rewrite Hy, Hys. simpl. eauto. }
    destruct H as [ys Hys]. rewrite Hys. simpl. eauto.
Qed.

Lemma nest_map_skeleton {A B : Type} (f : A -> B) (t : nest A) :
  skeleton (nest_map f t) = skeleton t.
Proof.
  apply map_structure_skeleton with (f := fun a => Ok (f a)).
  apply map_structure_pure.
Qed.

Lemma nest_map_leaves {A B : Type} (f : A -> B) (t : nest A) :
  tree.leaves (nest_map f t) = map f (tree.leaves t).
Proof.
  pose proof (map_structure_leaves (fun a => Ok (f a)) t
                (map_structure_pure f t)) as H.
  induction H as [|a b l l' Hab _ IH]; simpl; [reflexivity|].
  injection Hab as <-. now rewrite IH.
Qed.

Lemma skeleton_keys {A B : Type} (t : nest A) (t' : nest B) :
  skeleton t' = skeleton t -> keys t' = keys t.
Proof.
  destruct t as [a | kind xs | items], t' as [a' | kind' xs' | items'];
    simpl; intros H; try discriminate H; try reflexivity.
  injection H as H.
  apply (f_equal (map fst)) in H. rewrite !map_map in H. simpl in H.
  exact H.
Qed.

(* ================================================================= *)
(** * Properties of the adapter *)

Section AdapterProperties.

Variables E Action : Type.

Import PyToDMWrapper.

Abbreviation PyEnvironment := (py_environment.PyEnvironment E Action).
Abbreviation world := (PyToDMWrapper.world E Action).
Abbreviation event := (PyToDMWrapper.event Action).
Abbreviation adapter := (PyToDMWrapper.t E Action).

Ltac run_monad :=
  unfold __init__, reset, step, close, observation_spec, action_spec,
    discount_spec, environment, fmap, set_attr, log, bind, use, lift,
    raise, ret; cbn.

(** A construction over a batched environment. *)
Lemma init_batched (env : PyEnvironment) (w : world) (e' : E) :
  py_environment.batched env (env_state w) = (Ok true, e') ->
  __init__ env w
  = (Raise NotImplementedError,
     {| env_state := e';
        trace := trace w ++ [SetAttr "_environment"; EnvUse env_batched] |}).
Proof.
  intros Hb. run_monad. rewrite Hb; cbn. rewrite <- app_assoc. reflexivity.
Qed.

(** A construction that returned: what the environment was asked, what it
    answered, and what the adapter holds. *)
Lemma init_inversion (env : PyEnvironment) (w w' : world) (self : adapter) :
  __init__ env w = (Ok self, w') ->
  exists (e1 e2 e3 e4 : E) (observation action discount : nest tfa_spec.ArraySpec),
    py_environment.batched env (env_state w) = (Ok false, e1)
    /\ py_environment.observation_spec env e1 = (Ok observation, e2)
    /\ py_environment.action_spec env e2 = (Ok action, e3)
    /\ py_environment.discount_spec env e3 = (Ok discount, e4)
    /\ tree.map_structure _convert_action_spec action = Ok (_action_spec self)
    /\ self = {| _environment := env;
                 _observation_spec := nest_map _convert_spec observation;
                 _action_spec := _action_spec self;
                 _discount_spec := nest_map _convert_spec discount |}
    /\ w' = {| env_state := e4; trace := trace w ++ construction |}.
Proof.
  run_monad.
  destruct (py_environment.batched env (env_state w)) as [[[|]|e] e1] eqn:Hb;
    cbn; try discriminate.
  destruct (py_environment.observation_spec env e1)
    as [[observation|e] e2] eqn:Ho; cbn; try discriminate.
  rewrite map_structure_pure.
  destruct (py_environment.action_spec env e2) as [[action|e] e3] eqn:Ha;
    cbn; try discriminate.
  destruct (tree.map_structure _convert_action_spec action)
    as [action'|e] eqn:Haction; cbn; try discriminate.
  destruct (py_environment.discount_spec env e3) as [[discount|e] e4] eqn:Hd;
    cbn; try discriminate.
  rewrite map_structure_pure.
  intros H. injection H as <- <-.
  exists e1, e2, e3, e4, observation, action, discount.
  repeat (split; [first [reflexivity | assumption]|]).
  unfold construction. rewrite <- !app_assoc. reflexivity.
Qed.

(** One method call: it assigns no attribute, uses no spec method of the
    environment, and a spec accessor answers the attribute and leaves
    the world as it was. *)
Lemma invoke_effects (self : adapter) (m : method Action) (w : world) :
  exists later : list event,
    trace (snd (invoke self m w)) = trace w ++ later
    /\ filter is_spec_use later = []
    /\ filter is_assignment later = []
    /\ cached_answer self m (fst (invoke self m w)).
Proof.
  destruct m as [ | action | | | | | ]; unfold invoke; run_monad.
  - destruct (py_environment.reset (_environment self) (env_state w))
      as [[timestep|e] e']; simpl.
    + exists [EnvUse env_reset].
      destruct (_convert_timestep timestep); simpl; repeat split.
    + exists [EnvUse env_reset]. repeat split.
  - destruct (py_environment.step (_environment self) action (env_state w))
      as [[timestep|e] e']; simpl.
    + exists [EnvUse (env_step action)].
      destruct (_convert_timestep timestep); simpl; repeat split.
    + exists [EnvUse (env_step action)]. repeat split.
  - exists []. rewrite app_nil_r. repeat split.
  - exists []. rewrite app_nil_r. repeat split.
  - exists []. rewrite app_nil_r. repeat split.
  - exists []. rewrite app_nil_r. repeat split.
  - destruct (py_environment.close (_environment self) (env_state w))
      as [[[]|e] e']; simpl; exists [EnvUse env_close]; repeat split.
Qed.

(** Any sequence of method calls, by induction on the sequence. *)
Lemma run_effects (self : adapter) (ms : list (method Action)) :
  forall w : world,
  exists later : list event,
    trace (snd (run self ms w)) = trace w ++ later
    /\ filter is_spec_use later = []
    /\ filter is_assignment later = []
    /\ Forall2 (cached_answer self) ms (fst (run self ms w)).
Proof.
  induction ms as [|m ms IH]; intros w; simpl.
  - exists []. rewrite app_nil_r. repeat split. constructor.
  - destruct (invoke_effects self m w) as [l1 [Ht1 [Hs1 [Ha1 Hc1]]]].
    destruct (invoke self m w) as [r w1]; simpl in *.
    destruct (IH w1) as [l2 [Ht2 [Hs2 [Ha2 Hc2]]]].
    destruct (run self ms w1) as [rs w2]; simpl in *.
    exists (l1 ++ l2). rewrite Ht2, Ht1, <- app_assoc.
    rewrite !filter_app, Hs1, Hs2, Ha1, Ha2.
    repeat split. now constructor.
Qed.

(** C5.  Over an environment whose [batched] is true, [__init__] raises
    NotImplementedError and returns no adapter.  By then it has assigned
    [_environment] and read [batched], and nothing more: no spec method
    of the environment is used and no spec attribute is assigned. *)
Theorem batched_environment_rejected (env : PyEnvironment) (w : world)
    (e' : E) :
  py_environment.batched env (env_state w) = (Ok true, e') ->
  __init__ env w
  = (Raise NotImplementedError,
     {| env_state := e';
        trace := trace w ++ [SetAttr "_environment"; EnvUse env_batched] |})
  /\ (forall (self : adapter) (w' : world), __init__ env w <> (Ok self, w'))
  /\ (forall later : list event,
        trace (snd (__init__ env w)) = trace w ++ later ->
        filter is_spec_use later = []
        /\ filter is_assignment later = [SetAttr "_environment"]).
Proof.
  intros Hb. pose proof (init_batched env w Hb) as Hinit.
  split; [exact Hinit|]. split.
  - intros self w' Hok. rewrite Hinit in Hok. discriminate Hok.
  - intros later Hlater. rewrite Hinit in Hlater. simpl in Hlater.
    apply app_inv_head in Hlater. subst later. split; reflexivity.
Qed.


(** C9.  The specs an adapter holds have the containers of the specs the
    environment answered at construction, kind for kind and key for key
    in the same order, and their leaves are the converted leaves, one
    for one and in order: by [_convert_spec] for the observation and
    discount specs, by [_convert_action_spec] for the action spec. *)
Theorem nested_specs_keep_their_structure (env : PyEnvironment)
    (w w1 : world) (self : adapter) :
  __init__ env w = (Ok self, w1) ->
  exists (e1 e2 e3 e4 : E)
         (observation action discount : nest tfa_spec.ArraySpec),
    py_environment.batched env (env_state w) = (Ok false, e1)
    /\ py_environment.observation_spec env e1 = (Ok observation, e2)
    /\ py_environment.action_spec env e2 = (Ok action, e3)
    /\ py_environment.discount_spec env e3 = (Ok discount, e4)
    /\ (skeleton (_observation_spec self) = skeleton observation
        /\ keys (_observation_spec self) = keys observation
        /\ tree.leaves (_observation_spec self)
           = map _convert_spec (tree.leaves observation))
    /\ (skeleton (_action_spec self) = skeleton action
        /\ keys (_action_spec self) = keys action
        /\ Forall2 (fun spec descriptor =>
                      _convert_action_spec spec = Ok descriptor)
             (tree.leaves action) (tree.leaves (_action_spec self)))
    /\ (skeleton (_discount_spec self) = skeleton discount
        /\ keys (_discount_spec self) = keys discount
        /\ tree.leaves (_discount_spec self)
           = map _convert_spec (tree.leaves discount))
    /\ (forall (k1 k2 : string) (spec1 spec2 : tfa_spec.ArraySpec),
          observation = Mapping [(k1, Leaf spec1); (k2, Leaf spec2)] ->
          _observation_spec self
          = Mapping [(k1, Leaf (_convert_spec spec1));
                     (k2, Leaf (_convert_spec spec2))]).
Proof.
  intros Hinit.
  destruct (init_inversion env w Hinit)
    as [e1 [e2 [e3 [e4 [o [a [d [Hb [Ho [Ha [Hd [Hconv [Hself _]]]]]]]]]]]]].
  exists e1, e2, e3, e4, o, a, d.
  repeat (split; [assumption|]).
  rewrite Hself; simpl.
  pose proof (map_structure_skeleton _ _ Hconv) as Hskel.
  repeat split.
  - apply nest_map_skeleton.
  - apply skeleton_keys, nest_map_skeleton.
  - apply nest_map_leaves.
  - exact Hskel.
  - now apply skeleton_keys.
  - now apply map_structure_leaves.
  - apply nest_map_skeleton.
  - apply skeleton_keys, nest_map_skeleton.
  - apply nest_map_leaves.
  - intros k1 k2 spec1 spec2 ->. reflexivity.
Qed.


End AdapterProperties.

(* ================================================================= *)
(** * A small environment, and the theorems at work on it *)

Lemma sample_adapter_constructed :
  PyToDMWrapper.__init__ (sample_env false) fresh_world
  = (Ok sample_adapter, constructed_world).
Proof. reflexivity. Qed.

Lemma sample_specs_constructible :
  Forall constructible (tree.leaves sample_observation_spec)
  /\ Forall constructible (tree.leaves (Leaf five_actions))
  /\ Forall constructible (tree.leaves sample_discount_spec).
Proof.
  repeat split; repeat constructor; discriminate.
Qed.


Lemma batched_environment_rejected_witness :
  PyToDMWrapper.__init__ (sample_env true) fresh_world
  = (Raise NotImplementedError,
     {| PyToDMWrapper.env_state := 0;
        PyToDMWrapper.trace :=
          [PyToDMWrapper.SetAttr "_environment";
           PyToDMWrapper.EnvUse PyToDMWrapper.env_batched] |}).
Proof.
  exact (proj1 (@batched_environment_rejected nat nat (sample_env true)
                  fresh_world 0 eq_refl)).
Defined.


Lemma nested_specs_keep_their_structure_witness :
  skeleton (PyToDMWrapper._observation_spec sample_adapter)
  = skeleton sample_observation_spec
  /\ keys (PyToDMWrapper._observation_spec sample_adapter)
     = ["position"%string; "velocity"%string]
  /\ tree.leaves (PyToDMWrapper._observation_spec sample_adapter)
     = map _convert_spec (tree.leaves sample_observation_spec).
Proof.
  destruct (@nested_specs_keep_their_structure nat nat (sample_env false)
              fresh_world constructed_world sample_adapter
              sample_adapter_constructed)
    as [e1 [e2 [e3 [e4 [o [a [d [Hb [Ho [_ [_ [[Hskel [Hkeys Hleaves]] _]]]]]]]]]]]].
  cbn in Ho. injection Ho as <- _.
  repeat split; assumption.
Defined.


(* ================================================================= *)
(** * Further properties of the converters *)

(** [item()] raises nothing but ValueError, and raises it exactly on an
    array that does not hold one element. *)
Lemma item_raises (a : np.ndarray) (e : exn) :
  np.item a = Raise e <-> e = ValueError /\ List.length (np.data a) <> 1.
Proof.
  unfold np.item. destruct (np.data a) as [|x [|y l]]; simpl.
  - split; [intros H; injection H as <-; split; [reflexivity | discriminate]
           | intros [-> _]; reflexivity].
  - split; [discriminate | intros [_ H]; now contradiction H].
  - split; [intros H; injection H as <-; split; [reflexivity | discriminate]
           | intros [-> _]; reflexivity].
Qed.

(** Arrays that differ by axes of length one squeeze to the same array,
    and only those do. *)
Lemma squeeze_eq_iff (a b : np.ndarray) :
  np.squeeze a = np.squeeze b <-> same_up_to_singletons a b.
Proof.
  unfold np.squeeze, same_up_to_singletons. split.
  - intros H. injection H as Hshape Hdata. now split.
  - intros [Hdata Hshape]. now rewrite Hdata, Hshape.
Qed.

(** X4.  [_convert_timestep] reads of a timestep its three phase
    answers, its observation and, unless it tests first, its reward and
    discount up to axes of length one: two timesteps that agree on these
    convert alike, whatever their step types, and whatever their rewards
    and discounts when they test first. *)
Theorem convert_timestep_reads (t1 t2 : ts.TimeStep) :
  ts.is_first t1 = ts.is_first t2 ->
  ts.is_mid t1 = ts.is_mid t2 ->
  ts.is_last t1 = ts.is_last t2 ->
  ts.observation t1 = ts.observation t2 ->
  (ts.is_first t1 = false ->
   same_up_to_singletons (ts.reward t1) (ts.reward t2)
   /\ same_up_to_singletons (ts.discount t1) (ts.discount t2)) ->
  _convert_timestep t1 = _convert_timestep t2.
Proof.
  intros Hfirst Hmid Hlast Hobs Hrest.
  unfold _convert_timestep.
  rewrite <- Hfirst, <- Hmid, <- Hlast, <- Hobs.
  destruct (ts.is_first t1) eqn:H1; [reflexivity|].
  destruct (Hrest eq_refl) as [Hreward Hdiscount].
  apply squeeze_eq_iff in Hreward. apply squeeze_eq_iff in Hdiscount.
  rewrite Hreward, Hdiscount. reflexivity.
Qed.

Lemma convert_timestep_reads_witness :
  ts.reward (sample_timestep false true false) = wrapped 3.5
  /\ ts.reward (flat_timestep false true false) = scalar 3.5
  /\ _convert_timestep (sample_timestep false true false)
     = _convert_timestep (flat_timestep false true false).
Proof.
  split; [reflexivity|]. split; [reflexivity|].
  apply convert_timestep_reads; try reflexivity.
  intros _. split; split; reflexivity.
Defined.

(** X5.  What [_convert_timestep] returns is of one of two kinds.  Its
    step type is FIRST, its reward and discount are the floats 0.0 and
    1.0, and the source tests first; or its step type is not FIRST, the
    source does not test first, and its reward and discount are arrays
    without an axis of length one, which hold as many elements as their
    shapes announce whenever those of the source do. *)
Theorem converted_timestep_kinds (timestep : ts.TimeStep)
    (result_ : dm_env.TimeStep) :
  _convert_timestep timestep = Ok result_ ->
  (dm_env.step_type result_ = dm_env.FIRST
   /\ ts.is_first timestep = true
   /\ dm_env.reward result_ = dm_env.Float 0%float
   /\ dm_env.discount result_ = dm_env.Float 1%float)
  \/ (dm_env.step_type result_ <> dm_env.FIRST
      /\ ts.is_first timestep = false
      /\ exists reward discount : np.ndarray,
           dm_env.reward result_ = dm_env.NdArray reward
           /\ dm_env.discount result_ = dm_env.NdArray discount
           /\ ~ In 1 (np.shape reward)
           /\ ~ In 1 (np.shape discount)
           /\ (array_ok (ts.reward timestep) -> array_ok reward)
           /\ (array_ok (ts.discount timestep) -> array_ok discount)).
Proof.
  assert (Hkeeps : forall a, array_ok a -> array_ok (np.squeeze a)).
  { intros a Ha. unfold array_ok in *. rewrite squeeze_size. exact Ha. }
  intros Hconv.
  destruct (convert_timestep_cases timestep) as
    [Hfirst | Hfirst Hlast | Hfirst Hlast Hmid | Hfirst Hlast Hmid];
    try discriminate Hconv; injection Hconv as <-.
  - left. repeat split. exact Hfirst.
  - right. split; [discriminate|]. split; [exact Hfirst|].
    exists (np.squeeze (ts.reward timestep)),
      (np.squeeze (ts.discount timestep)).
    repeat split; auto using squeeze_no_singleton.
  - right. split; [discriminate|]. split; [exact Hfirst|].
    exists (np.squeeze (ts.reward timestep)),
      (np.squeeze (ts.discount timestep)).
    repeat split; auto using squeeze_no_singleton.
Qed.

Lemma converted_timestep_kinds_witness :
  dm_env.step_type (later_step dm_env.LAST (sample_timestep false false true))
  <> dm_env.FIRST
  /\ exists reward discount : np.ndarray,
       dm_env.reward (later_step dm_env.LAST (sample_timestep false false true))
       = dm_env.NdArray reward
       /\ dm_env.discount
            (later_step dm_env.LAST (sample_timestep false false true))
          = dm_env.NdArray discount
       /\ ~ In 1 (np.shape reward)
       /\ ~ In 1 (np.shape discount).
Proof.
  destruct (converted_timestep_kinds (sample_timestep false false true)
              (result_ := later_step dm_env.LAST
                            (sample_timestep false false true)) eq_refl)
    as [[Hfirst _] | [Hnot [_ [reward [discount [Hr [Hd [Hnr [Hnd _]]]]]]]]].
  - discriminate Hfirst.
  - split; [exact Hnot|]. now exists reward, discount.
Defined.

(** X10.  Both converters keep the shape, the element type and the name
    of a spec: whatever descriptor comes out, plain, bounded or discrete,
    reports those of the spec it was made from. *)
Theorem converters_keep_shape_dtype_name (spec : tfa_spec.ArraySpec) :
  (descriptor_shape (_convert_spec spec) = tfa_spec.shape spec
   /\ descriptor_dtype (_convert_spec spec) = tfa_spec.dtype spec
   /\ descriptor_name (_convert_spec spec) = tfa_spec.name spec)
  /\ (forall descriptor : dm_spec.Array,
        _convert_action_spec spec = Ok descriptor ->
        descriptor_shape descriptor = tfa_spec.shape spec
        /\ descriptor_dtype descriptor = tfa_spec.dtype spec
        /\ descriptor_name descriptor = tfa_spec.name spec).
Proof.
  split.
  - destruct spec; repeat split.
  - intros descriptor Hconv.
    destruct (convert_action_spec_cases spec);
      try discriminate Hconv; injection Hconv as <-; repeat split.
Qed.

Lemma converters_keep_shape_dtype_name_witness :
  exists descriptor : dm_spec.Array,
    _convert_action_spec five_actions = Ok descriptor
    /\ descriptor_shape descriptor = []
    /\ descriptor_dtype descriptor = np.int32
    /\ descriptor_name descriptor = Some "action"%string.
Proof.
  eexists. split; [reflexivity|].
  apply (proj2 (converters_keep_shape_dtype_name five_actions)).
  reflexivity.
Defined.

(* ================================================================= *)
(** * Further properties of nests *)

Lemma map_result_raises {A B : Type} (f : A -> result B) (l : list A)
    (e : exn) :
  map_result f l = Raise e -> exists x, In x l /\ f x = Raise e.
Proof.
  induction l as [|x l IH]; simpl; [discriminate|].
  destruct (f x) as [y|e'] eqn:Hx; simpl.
  - destruct (map_result f l) as [ys|e'] eqn:Hl; simpl; [discriminate|].
    intros H. injection H as ->.
    destruct (IH eq_refl) as [x' [Hin Hx']]. exists x'. auto.
  - intros H. injection H as ->. exists x. auto.
Qed.

(** An exception out of [tree.map_structure] is the exception of a
    leaf. *)
Lemma map_structure_raises {A B : Type} (f : A -> result B) (t : nest A)
    (e : exn) :
  tree.map_structure f t = Raise e ->
  exists a, In a (tree.leaves t) /\ f a = Raise e.
Proof.
  induction t as [a | kind xs IH | items IH] using nest_ind; simpl.
  - destruct (f a) as [b|e'] eqn:Ha; simpl; [discriminate|].
    intros H. injection H as ->. exists a. auto.
  - destruct (map_result (tree.map_structure f) xs) as [ys|e'] eqn:Hxs;
      simpl; [discriminate|].
    intros H. injection H as ->.
    apply map_result_raises in Hxs. destruct Hxs as [x [Hin Hx]].
    rewrite Forall_forall in IH.
    destruct (IH x Hin Hx) as [a [Ha Hfa]].
    exists a. split; [|exact Hfa].
    apply in_flat_map. now exists x.
  - match goal with
    | |- rbind ?m _ = _ -> _ => destruct m as [ys|e'] eqn:Hitems
    end; simpl; [discriminate|].
    intros H. injection H as ->.
    apply map_result_raises in Hitems. destruct Hitems as [kv [Hin Hkv]].
    destruct (tree.map_structure f (snd kv)) as [y|e'] eqn:Hy;
      simpl in Hkv; [discriminate|].
    injection Hkv as ->.
    rewrite Forall_forall in IH.
    destruct (IH kv Hin Hy) as [a [Ha Hfa]].
    exists a. split; [|exact Hfa].
    apply in_flat_map. now exists kv.
Qed.

(** A leaf on which [_convert_action_spec] raises has a scalar bound
    that is not a single number. *)
Lemma action_spec_raises_malformed (spec : tfa_spec.ArraySpec) (e : exn) :
  _convert_action_spec spec = Raise e ->
  e = ValueError /\ ~ scalar_bounds spec.
Proof.
  intros Hraise.
  destruct (convert_action_spec_cases spec) as
    [ | | | ? minimum ? ? e' _ Hlo | | ? ? maximum ? ? e' _ _ _ Hhi | ];
    try discriminate Hraise; injection Hraise as ->.
  - split; [now apply (item_raises minimum)|].
    intros [[x Hx] _]. congruence.
  - split; [now apply (item_raises maximum)|].
    intros [_ [x Hx]]. congruence.
Qed.

(* ================================================================= *)
(** * Further properties of the adapter *)

Section AdapterUse.

Variables E Action : Type.

Import PyToDMWrapper.

Abbreviation PyEnvironment := (py_environment.PyEnvironment E Action).
Abbreviation world := (PyToDMWrapper.world E Action).
Abbreviation event := (PyToDMWrapper.event Action).
Abbreviation adapter := (PyToDMWrapper.t E Action).

Ltac open_monad :=
  unfold __init__, reset, step, close, observation_spec, action_spec,
    discount_spec, environment, fmap, set_attr, log, bind, use, lift,
    raise, ret; cbn.

(** X6.  The environment an adapter was built over is the one its
    [environment] property answers, after any calls of its methods, and
    answering it uses no member of that environment. *)
Theorem environment_is_the_wrapped_one (env : PyEnvironment) (w w1 : world)
    (self : adapter) :
  __init__ env w = (Ok self, w1) ->
  forall (ms : list (method Action)) (w2 : world),
    environment self (snd (run self ms w2))
    = (Ok env, snd (run self ms w2)).
Proof.
  intros Hinit ms w2.
  destruct (init_inversion env w Hinit)
    as [e1 [e2 [e3 [e4 [o [a [d [_ [_ [_ [_ [_ [Hself _]]]]]]]]]]]]].
  unfold environment, ret. rewrite Hself at 1. reflexivity.
Qed.

(** An unrecognized timestep is one that fails the three tests. *)
Lemma unrecognized_raises (timestep : ts.TimeStep) :
  unrecognized timestep -> _convert_timestep timestep = Raise ValueError.
Proof.
  unfold unrecognized, phases_holding. intros Hnone.
  apply convert_timestep_none;
    destruct (ts.is_first timestep), (ts.is_mid timestep),
      (ts.is_last timestep); simpl in Hnone; try reflexivity;
    discriminate Hnone.
Qed.

(** X9.  When the environment answers [reset()] or [step(action)] with a
    timestep that passes no phase test, the adapter raises ValueError,
    and the environment stays in the state its own method left it in:
    the step has been taken, and its timestep is lost. *)
Theorem unrecognized_timestep_is_lost (self : adapter) (w : world) :
  (forall (timestep : ts.TimeStep) (e' : E),
     py_environment.reset (_environment self) (env_state w)
     = (Ok timestep, e') ->
     unrecognized timestep ->
     reset self w
     = (Raise ValueError,
        {| env_state := e'; trace := trace w ++ [EnvUse env_reset] |}))
  /\ (forall (action : Action) (timestep : ts.TimeStep) (e' : E),
        py_environment.step (_environment self) action (env_state w)
        = (Ok timestep, e') ->
        unrecognized timestep ->
        step self action w
        = (Raise ValueError,
           {| env_state := e';
              trace := trace w ++ [EnvUse (env_step action)] |})).
Proof.
  split.
  - intros timestep e' Henv Hnone. open_monad. rewrite Henv; cbn.
    now rewrite (unrecognized_raises Hnone).
  - intros action timestep e' Henv Hnone. open_monad. rewrite Henv; cbn.
    now rewrite (unrecognized_raises Hnone).
Qed.

(** One call: the members it reaches, and the state it leaves. *)
Lemma invoke_reaches (self : adapter) (m : method Action) (w : world) :
  trace (snd (invoke self m w)) = trace w ++ map EnvUse (reaches m)
  /\ env_state (snd (invoke self m w))
     = env_after (_environment self) (env_state w) m.
Proof.
  destruct m as [ | action | | | | | ]; unfold invoke; open_monad;
    try (rewrite app_nil_r; split; reflexivity).
  - destruct (py_environment.reset (_environment self) (env_state w))
      as [[timestep|e] e']; cbn; [|split; reflexivity].
    destruct (_convert_timestep timestep); cbn; split; reflexivity.
  - destruct (py_environment.step (_environment self) action (env_state w))
      as [[timestep|e] e']; cbn; [|split; reflexivity].
    destruct (_convert_timestep timestep); cbn; split; reflexivity.
  - destruct (py_environment.close (_environment self) (env_state w))
      as [[[]|e] e']; cbn; split; reflexivity.
Qed.

(** X8.  Through any sequence of method calls, whatever they return or
    raise, the adapter uses the wrapped environment exactly as the
    calls say: one [reset], [step] (same action) or [close] per call of
    that name, in the order of the calls, and nothing for the spec
    accessors and [environment].  The environment ends in the state
    those uses made directly would leave it in, and every call gets its
    answer. *)
Theorem adapter_drives_environment (self : adapter)
    (ms : list (method Action)) (w : world) :
  trace (snd (run self ms w))
  = trace w ++ map EnvUse (flat_map (@reaches Action) ms)
  /\ env_state (snd (run self ms w))
     = fold_left (env_after (_environment self)) ms (env_state w)
  /\ List.length (fst (run self ms w)) = List.length ms.
Proof.
  revert w. induction ms as [|m ms IH]; intros w; simpl.
  - rewrite app_nil_r. repeat split.
  - destruct (invoke_reaches self m w) as [Ht Hs].
    destruct (invoke self m w) as [r w1]; simpl in Ht, Hs.
    destruct (IH w1) as [Ht' [Hs' Hl']].
    destruct (run self ms w1) as [rs w2]; simpl in *.
    rewrite Ht', Ht, Hs', Hs, Hl', map_app, app_assoc.
    repeat split.
Qed.

End AdapterUse.

Section AdapterFailures.

Variables E Action : Type.

Import PyToDMWrapper.

Abbreviation PyEnvironment := (py_environment.PyEnvironment E Action).
Abbreviation world := (PyToDMWrapper.world E Action).
Abbreviation adapter := (PyToDMWrapper.t E Action).

Ltac open_init :=
  unfold __init__, set_attr, log, bind, use, lift, raise, ret; cbn.

Ltac failed_after n :=
  exists n; split; [simpl; lia|];
  split; [cbn; rewrite <- ?app_assoc; reflexivity|].


End AdapterFailures.

(* ================================================================= *)
(** * The further theorems at work on the small environments *)

Lemma stray_adapter_constructed :
  PyToDMWrapper.__init__ stray_env fresh_world
  = (Ok stray_adapter, constructed_world).
Proof. reflexivity. Qed.

Lemma environment_is_the_wrapped_one_witness :
  PyToDMWrapper.environment sample_adapter
    (snd (PyToDMWrapper.run sample_adapter sample_calls constructed_world))
  = (Ok (sample_env false),
     snd (PyToDMWrapper.run sample_adapter sample_calls constructed_world)).
Proof.
  exact (@environment_is_the_wrapped_one nat nat (sample_env false)
           fresh_world constructed_world sample_adapter
           sample_adapter_constructed sample_calls constructed_world).
Defined.

Lemma unrecognized_timestep_is_lost_witness :
  PyToDMWrapper.step stray_adapter 3 constructed_world
  = (Raise ValueError,
     {| PyToDMWrapper.env_state := 1;
        PyToDMWrapper.trace :=
          construction
          ++ [PyToDMWrapper.EnvUse (PyToDMWrapper.env_step 3)] |}).
Proof.
  apply (proj2 (@unrecognized_timestep_is_lost nat nat stray_adapter
                  constructed_world)
           3 (sample_timestep false false false) 1);
    reflexivity.
Defined.

Lemma raising_env_well_formed : well_formed_specs raising_env.
Proof.
  destruct sample_specs_constructible as [Ho [_ Hd]].
  intros e e' specs [H | [H | H]]; simpl in H.
  - injection H as <- _. exact Ho.
  - discriminate H.
  - injection H as <- _. exact Hd.
Qed.

